(** * markdown-to-docx: content classifier and structure transformer

    A shallow embedding of the two pieces of logic of the conversion
    service that carry branching behaviour:

    - [isMarkdownContent], the regular-expression heuristic that decides
      whether the text of a Google document looks like Markdown;
    - [htmlToGoogleDocsStructure], in its three versions, which turns
      the HTML produced by the Markdown converter into an ordered list
      of Google Docs [batchUpdate] requests, or throws when the parsed
      document lacks what it reads;

    together with the content extraction, the per-file loops and the
    routes of the servers.

    JavaScript strings are sequences of UTF-16 code units, and both
    [String.prototype.length] and the regular expressions of the source
    (none of which carries the [u] flag) work on code units, so a string
    is modelled as a list of code units. *)

From Stdlib Require Import String Ascii NArith ZArith Bool Lia Arith List.
From Stdlib Require QArith DecimalString.
Import ListNotations.

Set Implicit Arguments.
Set Warnings "-register-all".

(* ================================================================= *)
(** ** JavaScript strings *)

Module JsString.

Definition codeunit := N.
Definition jsstring := list codeunit.

(** A string literal of the source whose characters are all ASCII. *)
Definition js (s : string) : jsstring :=
  map N_of_ascii (list_ascii_of_string s).

Definition str_eqb (a b : jsstring) : bool :=
  if list_eq_dec N.eq_dec a b then true else false.

(** ECMAScript [LineTerminator]: LF, CR, LS, PS. *)
Definition isLineTerminator (c : codeunit) : bool :=
  ((c =? 10) || (c =? 13) || (c =? 8232) || (c =? 8233))%N.

(** ECMAScript [WhiteSpace]: TAB, VT, FF, SP, NBSP, ZWNBSP and the
    other members of Unicode category Zs. *)
Definition isWhiteSpace (c : codeunit) : bool :=
  ((c =? 9) || (c =? 11) || (c =? 12) || (c =? 32) || (c =? 160)
   || (c =? 5760) || ((8192 <=? c) && (c <=? 8202))
   || (c =? 8239) || (c =? 8287) || (c =? 12288) || (c =? 65279))%N.

(** The characters matched by [\s] and stripped by
    [String.prototype.trim]: white space and line terminators. *)
Definition isSpace (c : codeunit) : bool :=
  isWhiteSpace c || isLineTerminator c.

Fixpoint trimStart (s : jsstring) : jsstring :=
  match s with
  | [] => []
  | c :: s' => if isSpace c then trimStart s' else s
  end.

Definition trimEnd (s : jsstring) : jsstring :=
  rev (trimStart (rev s)).

(** [String.prototype.trim]. *)
Definition trim (s : jsstring) : jsstring := trimEnd (trimStart s).

(** Truthiness of a string: the empty string is the only falsy one. *)
Definition truthy (s : jsstring) : bool :=
  match s with [] => false | _ :: _ => true end.

(** The code unit just before the position reached by reading [s],
    when [p] was the code unit before [s]. *)
Definition unit_before (p : option codeunit) (s : jsstring) : option codeunit :=
  fold_left (fun _ c => Some c) s p.

(** The last code unit of a string, if any. *)
Definition last_unit (s : jsstring) : option codeunit := unit_before None s.

End JsString.
Import JsString.

(* ================================================================= *)
(** ** Exceptions

    A call either returns a value or throws an error, of which the
    handlers read the message only. *)

Module Exceptions.

Inductive completion (A : Type) : Type :=
| Return (a : A)
| Throw (message : jsstring).
Arguments Return {A} a.
Arguments Throw {A} message.

End Exceptions.
Import Exceptions.

(* ================================================================= *)
(** ** Regular expressions

    The ten patterns of [isMarkdownContent] are written with literals,
    character classes, sequencing, alternation, one capturing group,
    the quantifiers [+], [*?], [+?] and [{3,}], and the assertions [^]
    and [$].  The matcher below follows the continuation-passing
    semantics of the ECMAScript specification: a pattern is run against
    a position of the input, and a continuation decides whether the
    rest of the pattern accepts the position that it reaches.  A
    position is kept as the code unit just before it (if any) and the
    input that remains after it. *)

Module Regex.

Inductive regex : Type :=
| Eps : regex
| Cls : (codeunit -> bool) -> regex
| Seq : regex -> regex -> regex
| Alt : regex -> regex -> regex
| Star : bool -> regex -> regex      (* [true]: greedy, [false]: lazy *)
| Group : regex -> regex
| Bol : regex                        (* [^] *)
| Eol : regex.                       (* [$] *)

Record RegExp : Type := mkRegExp { pattern : regex; multiline : bool }.

Definition continuation := option codeunit -> jsstring -> bool.

Definition at_bol (ml : bool) (prev : option codeunit) : bool :=
  match prev with
  | None => true
  | Some c => ml && isLineTerminator c
  end.

Definition at_eol (ml : bool) (s : jsstring) : bool :=
  match s with
  | [] => true
  | c :: _ => ml && isLineTerminator c
  end.

(** One quantified loop.  An iteration that consumes nothing is
    rejected, as the specification's [RepeatMatcher] does, so the
    number of iterations is bounded by the remaining input; [fuel]
    is that bound. *)
Fixpoint repeat_matcher (body : continuation -> continuation)
         (greedy : bool) (k : continuation) (fuel : nat)
         (prev : option codeunit) (s : jsstring) : bool :=
  match fuel with
  | O => false
  | S fuel' =>
      let again :=
        body (fun prev' s' =>
                (length s' <? length s) && repeat_matcher body greedy k fuel' prev' s')
             prev s in
      if greedy then again || k prev s else k prev s || again
  end.

Fixpoint matcher (ml : bool) (r : regex) (k : continuation)
         (prev : option codeunit) (s : jsstring) {struct r} : bool :=
  match r with
  | Eps => k prev s
  | Cls f =>
      match s with
      | [] => false
      | c :: s' => f c && k (Some c) s'
      end
  | Seq r1 r2 => matcher ml r1 (matcher ml r2 k) prev s
  | Alt r1 r2 => matcher ml r1 k prev s || matcher ml r2 k prev s
  | Star greedy r1 =>
      repeat_matcher (matcher ml r1) greedy k (S (length s)) prev s
  | Group r1 => matcher ml r1 k prev s
  | Bol => at_bol ml prev && k prev s
  | Eol => at_eol ml s && k prev s
  end.

(** [RegExp.prototype.test] for a pattern without the [g] or [y]
    flag: the search starts at index 0 on every call and tries every
    index up to and including the length of the input. *)
Fixpoint test_from (R : RegExp) (prev : option codeunit) (s : jsstring) : bool :=
  matcher (multiline R) (pattern R) (fun _ _ => true) prev s
  || match s with
     | [] => false
     | c :: s' => test_from R (Some c) s'
     end.

Definition test (R : RegExp) (s : jsstring) : bool := test_from R None s.

(** *** Pattern syntax *)

Definition chr (a : ascii) : regex := Cls (N.eqb (N_of_ascii a)).

(** [[abc]] *)
Definition any_of (set : string) : regex :=
  Cls (fun c => existsb (N.eqb c) (js set)).

(** [[^abc]] *)
Definition none_of (set : string) : regex :=
  Cls (fun c => negb (existsb (N.eqb c) (js set))).

(** [.] without the [s] flag *)
Definition dot : regex := Cls (fun c => negb (isLineTerminator c)).

(** [\s] *)
Definition space : regex := Cls isSpace.

(** [[\s\S]] *)
Definition space_or_not : regex := Cls (fun c => isSpace c || negb (isSpace c)).

(** [\d] *)
Definition digit : regex := Cls (fun c => (48 <=? c) && (c <=? 57))%N.

Fixpoint lit_units (l : list ascii) : regex :=
  match l with
  | [] => Eps
  | [a] => chr a
  | a :: l' => Seq (chr a) (lit_units l')
  end.

(** A run of literal characters. *)
Definition lit (s : string) : regex := lit_units (list_ascii_of_string s).

(** [r+] and [r+?]: one occurrence, then the starred loop. *)
Definition plus (greedy : bool) (r : regex) : regex := Seq r (Star greedy r).

(** [r{n,}] *)
Fixpoint at_least (n : nat) (r : regex) : regex :=
  match n with
  | O => Star true r
  | S n' => Seq r (at_least n' r)
  end.

Fixpoint seqs (l : list regex) : regex :=
  match l with
  | [] => Eps
  | [r] => r
  | r :: l' => Seq r (seqs l')
  end.

End Regex.
Import Regex.

(* ================================================================= *)
(** ** The content classifier *)

Module Classifier.

Definition headers : RegExp :=          (* /#\s.+/m *)
  mkRegExp (seqs [chr "#"; space; plus true dot]) true.
Definition lists : RegExp :=            (* /^[-*+]\s.+/m *)
  mkRegExp (seqs [Bol; any_of "-*+"; space; plus true dot]) true.
Definition numberedLists : RegExp :=    (* /^\d+\.\s.+/m *)
  mkRegExp (seqs [Bol; plus true digit; chr "."; space; plus true dot]) true.
Definition codeBlocks : RegExp :=       (* /```[\s\S]*?```/ *)
  mkRegExp (seqs [lit "```"; Star false space_or_not; lit "```"]) false.
Definition inlineCode : RegExp :=       (* /`[^`]+`/ *)
  mkRegExp (seqs [chr "`"; plus true (none_of "`"); chr "`"]) false.
Definition emphasis : RegExp :=         (* /(\*\*|\*|__|_)/ *)
  mkRegExp (Group (Alt (lit "**") (Alt (lit "*") (Alt (lit "__") (lit "_"))))) false.
Definition links : RegExp :=            (* /\[.+?\]\(.+?\)/ *)
  mkRegExp (seqs [chr "["; plus false dot; chr "]"; chr "("; plus false dot; chr ")"]) false.
Definition blockquotes : RegExp :=      (* /^>\s.+/m *)
  mkRegExp (seqs [Bol; chr ">"; space; plus true dot]) true.
Definition tables : RegExp :=           (* /\|.+\|/ *)
  mkRegExp (seqs [chr "|"; plus true dot; chr "|"]) false.
Definition horizontalRules : RegExp :=  (* /^[-*_]{3,}$/m *)
  mkRegExp (seqs [Bol; at_least 3 (any_of "-*_"); Eol]) true.

(** The object literal [markdownPatterns], in key order. *)
Definition markdownPatterns : list (string * RegExp) :=
  [ ("headers", headers);
    ("lists", lists);
    ("numberedLists", numberedLists);
    ("codeBlocks", codeBlocks);
    ("inlineCode", inlineCode);
    ("emphasis", emphasis);
    ("links", links);
    ("blockquotes", blockquotes);
    ("tables", tables);
    ("horizontalRules", horizontalRules) ]%string.

Definition matchedPatterns (content : jsstring) : list (string * RegExp) :=
  filter (fun entry => test (snd entry) content) markdownPatterns.

Definition hasImportantPatterns (content : jsstring) : bool :=
  test headers content || test lists content || test emphasis content.

Definition isMarkdownContent (content : jsstring) : bool :=
  (2 <=? length (matchedPatterns content)) || hasImportantPatterns content.

End Classifier.
Import Classifier.

(* ================================================================= *)
(** ** The parsed HTML tree

    The HTML parser is an external library; the transformers read its
    result through the DOM interface only: [nodeType], [tagName],
    [childNodes], [children] and [textContent], and [tagName] is kept
    as the parser reports it.  The two transformers that start from
    [doc.body] depend on the parser for that property as well: a
    document object without it gives [undefined], and what
    [parseFromString] returns may itself be [undefined].  The servers
    load the [DOMParser] of [xmldom], whose documents have no [body]
    and which returns [undefined] for an empty source; the parser
    stays a parameter, and the properties that depend on this say
    so. *)

Module Dom.

Inductive node : Type :=
| Element (tagName : jsstring) (childNodes : list node)
| Text (data : jsstring)
| Comment (data : jsstring).

Definition nodeType (n : node) : N :=
  match n with
  | Element _ _ => 1
  | Text _ => 3
  | Comment _ => 8
  end.

Definition isElement (n : node) : bool := (nodeType n =? 1)%N.

Definition childNodes (n : node) : list node :=
  match n with
  | Element _ kids => kids
  | _ => []
  end.

(** [tagName] is only read on element nodes. *)
Definition tagName (n : node) : jsstring :=
  match n with
  | Element tag _ => tag
  | _ => []
  end.

(** [Element.children]: the child nodes that are elements. *)
Definition children (n : node) : list node := filter isElement (childNodes n).

(** [Node.textContent]: the data of a text or comment node; for an
    element, the text content of its children, comments left out,
    in document order. *)
Fixpoint textContent (n : node) : jsstring :=
  match n with
  | Element _ kids =>
      (fix each (l : list node) : jsstring :=
         match l with
         | [] => []
         | Comment _ :: l' => each l'
         | c :: l' => textContent c ++ each l'
         end) kids
  | Text d => d
  | Comment d => d
  end.

(** The document object that [parseFromString] returns, as far as the
    transformers that start from [doc.body] read it: the value of its
    [body] property, [None] for [undefined]. *)
Record DomDocument : Type := mkDomDocument { body : option node }.

End Dom.
Import Dom.

(* ================================================================= *)
(** ** Google Docs requests *)

Module Docs.

(** Values of the object literals passed as paragraph or text style. *)
Inductive json : Type :=
| JStr (s : string)
| JNum (q : QArith_base.Q)
| JBool (b : bool)
| JObj (fields : list (string * json)).

(** A JavaScript object literal, as its own properties in insertion
    order; [Object.keys] lists the first components. *)
Definition object := list (string * json).

Definition keys (o : object) : list string := map fst o.

Inductive request : Type :=
| insertText (index : N) (text : jsstring)
| updateTextStyle (startIndex endIndex : N) (textStyle : object) (fields : string)
| updateParagraphStyle (startIndex endIndex : N) (paragraphStyle : object) (fields : string).

Definition pt (n : Z) : json :=
  JObj [("magnitude", JNum (QArith_base.Qmake n 1)); ("unit", JStr "PT")]%string.

Definition grey (percent : Z) : json :=
  let v := JNum (QArith_base.Qmake percent 100) in
  JObj [("color", JObj [("rgbColor", JObj [("red", v); ("green", v); ("blue", v)])])]%string.

End Docs.
Import Docs.

(* ================================================================= *)
(** ** The structure transformer

    [htmlToGoogleDocsStructure] keeps two local variables, the array
    [requests] and the counter [currentIndex], which its inner functions
    update in place.  They are threaded here as an explicit state. *)

Module Transformer.

Record state : Type := mkState { requests : list request; currentIndex : N }.

Definition action := state -> state.

Definition skip : action := fun st => st.

Definition forEach {A : Type} (f : A -> action) : list A -> action :=
  fix each (l : list A) : action :=
    match l with
    | [] => skip
    | x :: l' => fun st => each l' (f x st)
    end.

(** [Array.prototype.forEach] with the index argument; [forEachFrom]
    is the loop from a given index on. *)
Fixpoint forEachFrom {A : Type} (f : A -> N -> action) (i : N) (l : list A) : action :=
  match l with
  | [] => skip
  | x :: l' => fun st => forEachFrom f (i + 1)%N l' (f x i st)
  end.

Definition forEachIndexed {A : Type} (f : A -> N -> action) (l : list A) : action :=
  forEachFrom f 0%N l.

Definition length_of (s : jsstring) : N := N.of_nat (length s).

Definition newline : jsstring := js (String "010" EmptyString).

(** The template literal [`${n}`] of a non-negative integer. *)
Definition toString (n : N) : jsstring :=
  js (DecimalString.NilEmpty.string_of_uint (N.to_uint n)).

Definition initial : state := mkState [] 1.

Definition addRequest (request : request) : action :=
  fun st => mkState (requests st ++ [request]) (currentIndex st).

Definition addText (text : jsstring) (style : object) : action :=
  fun st =>
    if negb (truthy (trim text)) then st
    else
      let st1 := addRequest (insertText (currentIndex st) (text ++ newline)) st in
      let st2 :=
        if (0 <? length (keys style))%nat then
          addRequest
            (updateParagraphStyle (currentIndex st1)
               (currentIndex st1 + length_of text) style "*") st1
        else st1 in
      mkState (requests st2) (currentIndex st2 + (length_of text + 1)).

Definition h1Style : object :=
  [("namedStyleType", JStr "HEADING_1"); ("spaceAbove", pt 20); ("spaceBelow", pt 10)]%string.
Definition h2Style : object :=
  [("namedStyleType", JStr "HEADING_2"); ("spaceAbove", pt 16); ("spaceBelow", pt 8)]%string.
Definition pStyle : object :=
  [("namedStyleType", JStr "NORMAL_TEXT"); ("spaceAbove", pt 8); ("spaceBelow", pt 8)]%string.
Definition preStyle : object :=
  [("namedStyleType", JStr "NORMAL_TEXT"); ("backgroundColor", grey 95);
   ("spaceAbove", pt 12); ("spaceBelow", pt 12)]%string.
Definition listItemStyle : object :=
  [("namedStyleType", JStr "NORMAL_TEXT"); ("indentStart", pt 36);
   ("spaceAbove", pt 4); ("spaceBelow", pt 4)]%string.
Definition blockquoteStyle : object :=
  [("namedStyleType", JStr "NORMAL_TEXT"); ("indentStart", pt 48);
   ("spaceAbove", pt 12); ("spaceBelow", pt 12);
   ("borderLeft", JObj [("color", grey 80); ("width", pt 3); ("padding", pt 12)])]%string.

(** The bullet glyph U+2022 followed by a space. *)
Definition bullet : jsstring := [8226%N; 32%N].

Definition listPrefix (tag : jsstring) (index : N) : jsstring :=
  if str_eqb tag (js "UL") then bullet else toString (index + 1) ++ js ". ".

Definition processElement (element : node) : action :=
  let tag := tagName element in
  if str_eqb tag (js "H1") then addText (textContent element) h1Style
  else if str_eqb tag (js "H2") then addText (textContent element) h2Style
  else if str_eqb tag (js "P") then addText (textContent element) pStyle
  else if str_eqb tag (js "PRE") then addText (textContent element) preStyle
  else if str_eqb tag (js "UL") || str_eqb tag (js "OL") then
    forEachIndexed
      (fun li index => addText (listPrefix tag index ++ textContent li) listItemStyle)
      (children element)
  else if str_eqb tag (js "BLOCKQUOTE") then addText (textContent element) blockquoteStyle
  else skip.

Definition skippedTags : list jsstring := [js "SCRIPT"; js "STYLE"].

Definition includes (l : list jsstring) (x : jsstring) : bool := existsb (str_eqb x) l.

Fixpoint walkDOM (n : node) : action :=
  fun st =>
    let st1 := if isElement n then processElement n st else st in
    match n with
    | Element _ kids =>
        forEach
          (fun child =>
             if isElement child && negb (includes skippedTags (tagName child))
             then walkDOM child
             else skip)
          kids st1
    | _ => st1
    end.

Section WithParser.

(** [new DOMParser().parseFromString(htmlContent, 'text/html')], with
    [None] for [undefined]. *)
Variable parseFromString : jsstring -> option DomDocument.

(** The message of the [TypeError] raised by reading the named
    property of [undefined]. *)
Variable typeError : jsstring -> jsstring.

(** [walkDOM(doc.body)] reads [body] of the document, and the walk
    begins by reading [nodeType] of its argument. *)
Definition htmlToGoogleDocsStructure (htmlContent : jsstring)
  : completion (list request) :=
  match parseFromString htmlContent with
  | None => Throw (typeError (js "body"))
  | Some doc =>
      match body doc with
      | None => Throw (typeError (js "nodeType"))
      | Some root => Return (requests (walkDOM root initial))
      end
  end.

End WithParser.

End Transformer.
Import Transformer.

(* ================================================================= *)
(** ** The earlier, flat transformer

    An older [htmlToGoogleDocsStructure] is kept in another file of the
    repository.  It does not walk the tree: it looks at the direct
    children of the body only, lower-cases the tag name before the
    dispatch, inserts the text without testing it for blanks, and its
    [switch] ends in a [default] branch.  [String.prototype.toLowerCase]
    is a parameter. *)

Module FlatTransformer.

Section WithCaseMapping.

Variable toLowerCase : jsstring -> jsstring.

Definition addFormattedText (text : jsstring) (formatting : object) : action :=
  fun st =>
    let st1 := addRequest (insertText (currentIndex st) text) st in
    let st2 :=
      if (0 <? length (keys formatting))%nat then
        addRequest
          (updateTextStyle (currentIndex st1) (currentIndex st1 + length_of text)
             formatting (String.concat "," (keys formatting))) st1
      else st1 in
    mkState (requests st2) (currentIndex st2 + length_of text).

Definition headingFormat (size : Z) : object :=
  [("bold", JBool true); ("fontSize", pt size)]%string.

Definition codeFormat : object :=
  [("backgroundColor", grey 95); ("fontFamily", JStr "Courier New")]%string.

(** The prefix of a list item as the file spells it: four code units,
    U+00E2, U+20AC, U+00A2 and a space. *)
Definition itemPrefix : jsstring := [226; 8364; 162; 32]%N.

Definition processChild (element : node) : action :=
  let tag := toLowerCase (tagName element) in
  if str_eqb tag (js "h1") then
    addFormattedText (textContent element ++ newline) (headingFormat 24)
  else if str_eqb tag (js "h2") then
    addFormattedText (textContent element ++ newline) (headingFormat 20)
  else if str_eqb tag (js "p") then
    addFormattedText (textContent element ++ newline) []
  else if str_eqb tag (js "ul") then
    forEach (fun li => addFormattedText (itemPrefix ++ textContent li ++ newline) [])
            (children element)
  else if str_eqb tag (js "code") then
    addFormattedText (textContent element ++ newline) codeFormat
  else
    addFormattedText (textContent element ++ newline) [].

Variable parseFromString : jsstring -> option DomDocument.
Variable typeError : jsstring -> jsstring.

(** [Array.from(doc.body.children).forEach(...)] reads [body] of the
    document and [children] of the body. *)
Definition htmlToGoogleDocsStructure (htmlContent : jsstring)
  : completion (list request) :=
  match parseFromString htmlContent with
  | None => Throw (typeError (js "body"))
  | Some doc =>
      match body doc with
      | None => Throw (typeError (js "children"))
      | Some root => Return (requests (forEach processChild (children root) initial))
      end
  end.

End WithCaseMapping.

End FlatTransformer.

(* ================================================================= *)
(** ** The batch conversion loop of [POST /api/convert]

    The handler awaits one remote call after another, so a run is a
    sequence of calls against the services.  Each call either returns
    or throws an error with a message, and may change the state of the
    world; the services themselves are parameters. *)

Module Batch.

Record File : Type := mkFile { id : jsstring; name : jsstring }.

(** The part of a Google Docs document that the extraction reads. *)
Record ParagraphElement : Type :=
  mkParagraphElement { textRun_content : option jsstring }.
Record StructuralElement : Type :=
  mkStructuralElement { paragraph_elements : option (list ParagraphElement) }.
Record Document : Type :=
  mkDocument { body_content : option (list StructuralElement) }.

Definition join (sep : jsstring) (parts : list jsstring) : jsstring :=
  match parts with
  | [] => []
  | p :: ps => fold_left (fun acc q => acc ++ sep ++ q) ps p
  end.

(** [extractDocumentContent]: of the two declarations of this name the
    later one is the one in force.  A missing [body.content] raises
    inside the [try] block and the [catch] returns the empty string. *)
Definition extractDocumentContent (docContent : Document) : jsstring :=
  match body_content docContent with
  | None => []
  | Some content =>
      let contentParts :=
        flat_map
          (fun section =>
             match paragraph_elements section with
             | Some elements =>
                 flat_map
                   (fun element =>
                      match textRun_content element with
                      | Some c => if truthy c then [c] else []
                      | None => []
                      end)
                   elements
             | None => []
             end)
          content in
      join newline contentParts
  end.

Inductive ConvertedFile : Type :=
| converted (originalFileName convertedFileName : jsstring)
| failed (originalFileName error : jsstring).

(** An awaited call to a service: it returns or throws, and leaves
    the world in a new state.  The world is everything outside the
    handler that its calls can change: the remote services and the
    archive object of the request. *)
Definition Remote (World A : Type) : Type := World -> completion A * World.

(** What the handler calls: [docs.documents.get], [.create] and
    [.batchUpdate], [drive.files.update] and [.export], the Markdown
    converter [marked.parse], the HTML parser with the message of the
    [TypeError] raised by reading a property of [undefined], and the
    archive library: [new AdmZip()] and [zip.addFile]. *)
Record Services (World : Type) : Type := mkServices {
  documents_get : jsstring -> Remote World Document;
  documents_create : jsstring -> Remote World jsstring;
  documents_batchUpdate : jsstring -> list request -> Remote World unit;
  files_update : jsstring -> jsstring -> Remote World unit;
  files_export : jsstring -> Remote World (list N);
  marked_parse : jsstring -> jsstring;
  parseFromString : jsstring -> option DomDocument;
  typeError : jsstring -> jsstring;
  AdmZip_new : World -> World;
  AdmZip_addFile : jsstring -> list N -> World -> World
}.

Section Handler.

Variable World : Type.
Variable services : Services World.

(** The variable of the handler that the loop updates, the array
    [convertedFiles], and the world. *)
Record handlerState : Type := mkHandlerState {
  convertedFiles : list ConvertedFile;
  world : World
}.

Definition Task (A : Type) : Type := handlerState -> completion A * handlerState.

Definition ret {A : Type} (a : A) : Task A := fun st => (Return a, st).

Definition bind {A B : Type} (t : Task A) (k : A -> Task B) : Task B :=
  fun st =>
    match t st with
    | (Return a, st') => k a st'
    | (Throw message, st') => (Throw message, st')
    end.

Definition await {A : Type} (call : Remote World A) : Task A :=
  fun st =>
    let (c, w) := call (world st) in
    (c, mkHandlerState (convertedFiles st) w).

(** A call of a function of the file itself, which returns or throws
    and changes nothing. *)
Definition evaluate {A : Type} (c : completion A) : Task A :=
  fun st => (c, st).

Definition zip_addFile (entryName : jsstring) (data : list N) : Task unit :=
  fun st =>
    (Return tt,
     mkHandlerState (convertedFiles st) (AdmZip_addFile services entryName data (world st))).

Definition convertedFiles_push (entry : ConvertedFile) : Task unit :=
  fun st =>
    (Return tt, mkHandlerState (convertedFiles st ++ [entry]) (world st)).

(** [try { body } catch (fileError) { handler(fileError.message) }] *)
Definition tryCatch (body : Task unit) (handler : jsstring -> Task unit) : Task unit :=
  fun st =>
    match body st with
    | (Return tt, st') => (Return tt, st')
    | (Throw message, st') => handler message st'
    end.

Local Notation "x <- t ;; k" := (bind t (fun x => k))
  (at level 61, t at next level, right associativity).
Local Notation "t ;;; k" := (bind t (fun _ => k))
  (at level 61, right associativity).

(** The body of the [try] block of one iteration.  The call of
    [htmlToGoogleDocsStructure] stands inside the block, before the
    new document is created. *)
Definition convertFile (convertedFolderId : jsstring) (file : File) : Task unit :=
  docContent <- await (documents_get services (id file)) ;;
  let content := extractDocumentContent docContent in
  if isMarkdownContent content then
    let htmlContent := marked_parse services content in
    requests <- evaluate
                  (htmlToGoogleDocsStructure (parseFromString services)
                     (typeError services) htmlContent) ;;
    documentId <- await (documents_create services (js "Converted-" ++ name file)) ;;
    await (documents_batchUpdate services documentId requests) ;;;
    await (files_update services documentId convertedFolderId) ;;;
    pdfBuffer <- await (files_export services documentId) ;;
    zip_addFile (name file ++ js ".pdf") pdfBuffer ;;;
    convertedFiles_push (converted (name file) (name file ++ js ".pdf"))
  else ret tt.

(** One iteration of [for (const file of fileListResponse.data.files)]. *)
Definition iteration (convertedFolderId : jsstring) (file : File) : Task unit :=
  tryCatch (convertFile convertedFolderId file)
           (fun message => convertedFiles_push (failed (name file) message)).

Fixpoint convertAll (convertedFolderId : jsstring) (files : list File) : Task unit :=
  match files with
  | [] => ret tt
  | file :: rest =>
      iteration convertedFolderId file ;;; convertAll convertedFolderId rest
  end.

End Handler.

End Batch.
Import Batch.
(* ================================================================= *)
(** ** Specification-level definitions *)

Module RegexSemantics.

(** [Match ml r p s p' s']: pattern [r], started at the position with
    [p] before it and [s] after it, can stop at the position with
    [p'] before it and [s'] after it. *)
Inductive Match (ml : bool) :
  regex -> option codeunit -> jsstring -> option codeunit -> jsstring -> Prop :=
| MEps p s : Match ml Eps p s p s
| MCls f p c s : f c = true -> Match ml (Cls f) p (c :: s) (Some c) s
| MSeq r1 r2 p s p1 s1 p2 s2 :
    Match ml r1 p s p1 s1 -> Match ml r2 p1 s1 p2 s2 ->
    Match ml (Seq r1 r2) p s p2 s2
| MAltL r1 r2 p s p' s' : Match ml r1 p s p' s' -> Match ml (Alt r1 r2) p s p' s'
| MAltR r1 r2 p s p' s' : Match ml r2 p s p' s' -> Match ml (Alt r1 r2) p s p' s'
| MStarStop g r p s : Match ml (Star g r) p s p s
| MStarStep g r p s p1 s1 p2 s2 :
    Match ml r p s p1 s1 -> length s1 < length s ->
    Match ml (Star g r) p1 s1 p2 s2 ->
    Match ml (Star g r) p s p2 s2
| MGroup r p s p' s' : Match ml r p s p' s' -> Match ml (Group r) p s p' s'
| MBol p s : at_bol ml p = true -> Match ml Bol p s p s
| MEol p s : at_eol ml s = true -> Match ml Eol p s p s.

(** A position at the start of a line: the start of the input, or
    just after a line terminator. *)
Definition line_start (pre : jsstring) : Prop :=
  pre = [] \/ exists pre' c, pre = pre' ++ [c] /\ isLineTerminator c = true.

(** [leads P r]: every match of [r] consumes at least one code unit,
    and the first one it consumes satisfies [P]. *)
Fixpoint zero_width (r : regex) : Prop :=
  match r with
  | Eps | Bol | Eol => True
  | Group r1 => zero_width r1
  | Seq r1 r2 => zero_width r1 /\ zero_width r2
  | _ => False
  end.

Fixpoint leads (P : codeunit -> Prop) (r : regex) : Prop :=
  match r with
  | Cls f => forall c, f c = true -> P c
  | Seq r1 r2 => leads P r1 \/ (zero_width r1 /\ leads P r2)
  | Alt r1 r2 => leads P r1 /\ leads P r2
  | Group r1 => leads P r1
  | _ => False
  end.

End RegexSemantics.
Import RegexSemantics.

Module ClassifierSpec.

(** Two patterns with different names match the text. *)
Definition two_signals (text : jsstring) : Prop :=
  exists name1 R1 name2 R2,
    name1 <> name2 /\
    In (name1, R1) markdownPatterns /\ In (name2, R2) markdownPatterns /\
    test R1 text = true /\ test R2 text = true.

(** The three signals that decide alone, read off the text. *)

(** A [#], then a white-space or line-terminator code unit, then a
    code unit that is not a line terminator, anywhere in the text. *)
Definition heading_anywhere (text : jsstring) : Prop :=
  exists pre c1 c2 post,
    text = pre ++ 35%N :: c1 :: c2 :: post /\
    isSpace c1 = true /\ isLineTerminator c2 = false.

(** At the start of a line: [-], [*] or [+], then a white-space or
    line-terminator code unit, then a code unit that is not a line
    terminator. *)
Definition bullet_line (text : jsstring) : Prop :=
  exists pre b c1 c2 post,
    text = pre ++ b :: c1 :: c2 :: post /\
    line_start pre /\ (b = 45%N \/ b = 42%N \/ b = 43%N) /\
    isSpace c1 = true /\ isLineTerminator c2 = false.

(** A [*] or a [_] anywhere in the text. *)
Definition emphasis_marker (text : jsstring) : Prop :=
  In 42%N text \/ In 95%N text.

(** The heading signal in the words of the specification, "a line
    beginning with # followed by whitespace": the pattern [/^#\s/m]. *)
Definition heading_as_specified : RegExp :=
  mkRegExp (seqs [Bol; chr "#"; space]) true.

(** The decision rule of the specification with the heading signal
    anchored at the start of a line; the other nine signals are the
    patterns of the source. *)
Definition patterns_as_specified : list (string * RegExp) :=
  ("headers"%string, heading_as_specified) :: tl markdownPatterns.

Definition classify_as_specified (text : jsstring) : bool :=
  (2 <=? length (filter (fun entry => test (snd entry) text) patterns_as_specified))
  || (test heading_as_specified text || test lists text || test emphasis text).

(** The code units with which each of the ten patterns can begin. *)
Definition opener (c : codeunit) : Prop :=
  In c (js "#-*+0123456789`_[>|").

(** A line feed, for sample texts of more than one line. *)
Definition line_break : string := String "010" EmptyString.

(** The names of the seven signals that do not decide alone. *)
Definition minor_signals : list string :=
  ["numberedLists"; "codeBlocks"; "inlineCode"; "links"; "blockquotes";
   "tables"; "horizontalRules"]%string.

End ClassifierSpec.
Import ClassifierSpec.

Module TransformerSpec.

(** The tags whose case in [processElement] passes the element's own
    text content to [addText]. *)
Definition textTags : list jsstring :=
  [js "H1"; js "H2"; js "P"; js "PRE"; js "BLOCKQUOTE"].

Definition listTags : list jsstring := [js "UL"; js "OL"].

(** The tags that have a case in [processElement]. *)
Definition recognizedTags : list jsstring := textTags ++ listTags.

(** The texts of the [insertText] requests, in order. *)
Definition inserted_texts (ops : list request) : list jsstring :=
  flat_map (fun r => match r with insertText _ t => [t] | _ => [] end) ops.

(** A parser whose documents carry no [body] property, and which
    gives [undefined] for an empty source, as the parser that the
    servers load does; and the message of a [TypeError] as Node.js
    words it. *)
Definition bodyless (htmlContent : jsstring) : option DomDocument :=
  match htmlContent with
  | [] => None
  | _ :: _ => Some (mkDomDocument None)
  end.

Definition reading (property : jsstring) : jsstring :=
  js "Cannot read properties of undefined (reading '" ++ property ++ js "')".

(** The body that a parser of HTML documents builds for
    [<h1>Title</h1><p>Body</p>], for [<ul><li>A</li><li>B</li></ul>],
    for [<blockquote><p>Quote</p></blockquote>] and for
    [<h3>Title</h3>]. *)
Definition fragment_h1_p : node :=
  Element (js "BODY")
    [ Element (js "H1") [Text (js "Title")];
      Element (js "P") [Text (js "Body")] ].

Definition fragment_ul : node :=
  Element (js "BODY")
    [ Element (js "UL")
        [ Element (js "LI") [Text (js "A")];
          Element (js "LI") [Text (js "B")] ] ].

Definition fragment_blockquote : node :=
  Element (js "BODY")
    [ Element (js "BLOCKQUOTE") [Element (js "P") [Text (js "Quote")]] ].

Definition fragment_h3 : node :=
  Element (js "BODY") [Element (js "H3") [Text (js "Title")]].

End TransformerSpec.
Import TransformerSpec.

Module BatchSpec.

(** What one iteration of the loop comes to. *)
Inductive Outcome : Type :=
| Skipped                          (* left out: no entry is recorded *)
| Converted                        (* the [try] block ran to its end *)
| FailedWith (message : jsstring). (* a call of the [try] block threw *)

Definition not_failed (o : Outcome) : Prop :=
  match o with FailedWith _ => False | _ => True end.

Definition recorded (o : Outcome) : bool :=
  match o with Skipped => false | _ => true end.

Definition is_converted (e : ConvertedFile) : Prop :=
  match e with converted _ _ => True | failed _ _ => False end.

(** The entries an iteration with a given outcome appends to
    [convertedFiles]. *)
Definition entries (file : File) (o : Outcome) : list ConvertedFile :=
  match o with
  | Skipped => []
  | Converted => [converted (name file) (name file ++ js ".pdf")]
  | FailedWith message => [failed (name file) message]
  end.

Fixpoint new_entries (files : list File) (os : list Outcome) : list ConvertedFile :=
  match files, os with
  | file :: files', o :: os' => entries file o ++ new_entries files' os'
  | _, _ => []
  end.

(** A loop over the files, given what it does with one file, and the
    outcomes of its iterations, each in the state its iteration
    starts in. *)
Section Loops.

Variable World : Type.
Variable step : File -> Task World unit.
Variable outcomeOf : File -> handlerState World -> Outcome.

Fixpoint forEachFile (files : list File) : Task World unit :=
  match files with
  | [] => ret tt
  | file :: rest => bind (step file) (fun _ => forEachFile rest)
  end.

Fixpoint outcomesFrom (files : list File) (st : handlerState World) : list Outcome :=
  match files with
  | [] => []
  | file :: rest => outcomeOf file st :: outcomesFrom rest (snd (step file st))
  end.

End Loops.

Section Outcomes.

Variable World : Type.
Variable services : Services World.
Variable convertedFolderId : jsstring.

Definition outcome (file : File) (st : handlerState World) : Outcome :=
  match documents_get services (id file) (world st) with
  | (Throw message, _) => FailedWith message
  | (Return docContent, _) =>
      if isMarkdownContent (extractDocumentContent docContent) then
        match fst (convertFile services convertedFolderId file st) with
        | Return _ => Converted
        | Throw message => FailedWith message
        end
      else Skipped
  end.

(** The outcomes of the iterations of a run, one per file, each in
    the state its iteration starts in. *)
Fixpoint outcomes (files : list File) (st : handlerState World) : list Outcome :=
  match files with
  | [] => []
  | file :: rest =>
      outcome file st
      :: outcomes rest (snd (iteration services convertedFolderId file st))
  end.

(** The array [convertedFiles] when the loop is over. *)
Definition results (files : list File) (st : handlerState World) : list ConvertedFile :=
  convertedFiles (snd (convertAll services convertedFolderId files st)).

End Outcomes.

(** A document of one paragraph with one text run. *)
Definition document_of (text : jsstring) : Document :=
  mkDocument (Some [mkStructuralElement (Some [mkParagraphElement (Some text)])]).

(** A run with three documents: the first, left by an earlier run,
    holds plain prose; [b] and [c] hold a Markdown heading; the batch
    update of the document created for [b] is refused; and the
    documents of the parser have no [body]. *)
Definition sample_services : Services unit :=
  mkServices
    (fun fileId w =>
       (Return (if str_eqb fileId (js "1") then document_of (js "meeting notes")
                else document_of (js "# Title")), w))
    (fun title w => (Return title, w))
    (fun documentId _ w =>
       if str_eqb documentId (js "Converted-b")
       then (Throw (js "quota exceeded"), w) else (Return tt, w))
    (fun _ _ w => (Return tt, w))
    (fun _ w => (Return [37; 80; 68; 70]%N, w))
    (fun markdown => markdown)
    bodyless
    reading
    (fun w => w)
    (fun _ _ w => w).

Definition sample_files : list File :=
  [ mkFile (js "1") (js "Converted-notes");
    mkFile (js "2") (js "b");
    mkFile (js "3") (js "c") ].

Definition sample_start : handlerState unit := mkHandlerState [] tt.

End BatchSpec.
Import BatchSpec.

(* ================================================================= *)
(** ** The substring detector

    The routes [/api/convert-2] and, in the earlier server, [/api/docs]
    decide with six calls of [String.prototype.includes] instead of the
    patterns. *)

Module BasicDetector.

Fixpoint startsWith (search s : jsstring) : bool :=
  match search, s with
  | [], _ => true
  | _ :: _, [] => false
  | a :: search', b :: s' => (a =? b)%N && startsWith search' s'
  end.

(** [String.prototype.includes] with the search starting at index 0. *)
Fixpoint str_includes (s search : jsstring) : bool :=
  startsWith search s
  || match s with
     | [] => false
     | _ :: s' => str_includes s' search
     end.

Definition basicMarkdown (content : jsstring) : bool :=
  str_includes content (js "# ")
  || str_includes content (js "## ")
  || str_includes content (js "**")
  || str_includes content (js "*")
  || str_includes content (js "- ")
  || str_includes content (js "```").

End BasicDetector.
Import BasicDetector.

Module ClassifierExtraSpec.

(** The pattern holds an assertion [^] or [$]. *)
Fixpoint has_anchor (r : regex) : bool :=
  match r with
  | Bol | Eol => true
  | Seq r1 r2 | Alt r1 r2 => has_anchor r1 || has_anchor r2
  | Star _ r1 | Group r1 => has_anchor r1
  | Eps | Cls _ => false
  end.

(** The assertions of the pattern, if any, are read line by line. *)
Definition line_anchored (R : RegExp) : bool :=
  multiline R || negb (has_anchor (pattern R)).

(** [needs P r]: every match of [r] consumes a code unit that
    satisfies [P]. *)
Fixpoint needs (P : codeunit -> Prop) (r : regex) : Prop :=
  match r with
  | Cls f => forall c, f c = true -> P c
  | Seq r1 r2 => needs P r1 \/ needs P r2
  | Alt r1 r2 => needs P r1 /\ needs P r2
  | Group r1 => needs P r1
  | _ => False
  end.

(** The ten characters without one of which no pattern matches. *)
Definition markers : jsstring := js "#-*+.`_[>|".

Definition is_marker (c : codeunit) : bool := existsb (N.eqb c) markers.

Definition marker (c : codeunit) : Prop := is_marker c = true.

(** Two positions agree for a pattern when the code unit before them
    is the same, or one is the start of the text and the other follows
    a line terminator. *)
Definition same_line_start (p q : option codeunit) : Prop :=
  p = q \/ (p = None /\ exists c, q = Some c /\ isLineTerminator c = true).

Definition backtick : codeunit := 96%N.

Definition fence : jsstring := js "```".

Definition not_backtick (c : codeunit) : Prop := c <> backtick.

(** The nine patterns other than the fence pattern. *)
Definition patterns_but_fence : list RegExp :=
  [headers; lists; numberedLists; inlineCode; emphasis; links; blockquotes;
   tables; horizontalRules].

(** [contains s sub]: [sub] occurs in [s]. *)
Definition contains (s sub : jsstring) : Prop :=
  exists pre post, s = pre ++ sub ++ post.

End ClassifierExtraSpec.
Import ClassifierExtraSpec.

(* ================================================================= *)
(** ** The transformer that works tag by tag

    The [htmlToGoogleDocsStructure] of [index.js] does not walk the
    tree.  It asks the document for all [h1] elements, then all [h2],
    [p], [ul] (and for each list its [li] descendants) and [pre]
    elements, and writes each group in turn.  Its [addFormattedText]
    takes a text style and a paragraph style.  The name test of
    [getElementsByTagName] belongs to the parser library and is a
    parameter; the document is given by its child nodes, and the
    parser may return [undefined] instead of a document. *)

Module TagOrderTransformer.

(** The element descendants of a list of nodes, in document order. *)
Fixpoint descendants (n : node) : list node :=
  match n with
  | Element _ kids =>
      flat_map (fun k => if isElement k then k :: descendants k else []) kids
  | _ => []
  end.

Definition descendantsOf (kids : list node) : list node :=
  flat_map (fun k => if isElement k then k :: descendants k else []) kids.

Section WithNameTest.

Variable sameName : jsstring -> jsstring -> bool.

Definition getElementsByTagName (kids : list node) (name : jsstring) : list node :=
  filter (fun e => sameName (tagName e) name) (descendantsOf kids).

Definition addFormattedText (text : jsstring) (textStyle paragraphStyle : object)
  : action :=
  fun st =>
    if negb (truthy text) || negb (truthy (trim text)) then st
    else
      let st1 := addRequest (insertText (currentIndex st) (text ++ newline)) st in
      let st2 :=
        if (0 <? length (keys textStyle))%nat then
          addRequest
            (updateTextStyle (currentIndex st1)
               (currentIndex st1 + length_of text) textStyle "*") st1
        else st1 in
      let st3 :=
        if (0 <? length (keys paragraphStyle))%nat then
          addRequest
            (updateParagraphStyle (currentIndex st2)
               (currentIndex st2 + length_of text) paragraphStyle "*") st2
        else st2 in
      mkState (requests st3) (currentIndex st3 + (length_of text + 1)).

Definition headingText (size : Z) : object :=
  [("bold", JBool true); ("fontSize", pt size)]%string.

Definition named (styleName : string) : object :=
  [("namedStyleType", JStr styleName)]%string.

Definition listItemParagraph : object :=
  [("namedStyleType", JStr "NORMAL_TEXT"); ("indentStart", pt 36);
   ("indentFirstLine", pt 18)]%string.

Definition preText : object :=
  [("fontFamily", JStr "Courier New"); ("backgroundColor", grey 95)]%string.

Definition preParagraph : object :=
  [("namedStyleType", JStr "NORMAL_TEXT"); ("spaceAbove", pt 10);
   ("spaceBelow", pt 10)]%string.

(** The list prefix as the file spells it (see [FlatTransformer]). *)
Definition itemPrefix : jsstring := [226; 8364; 162; 32]%N.

Definition processHeadings (doc : list node) : action :=
  forEach (fun heading =>
             addFormattedText (textContent heading) (headingText 16) (named "HEADING_1"))
          (getElementsByTagName doc (js "h1")).

Definition processSubHeadings (doc : list node) : action :=
  forEach (fun heading =>
             addFormattedText (textContent heading) (headingText 14) (named "HEADING_2"))
          (getElementsByTagName doc (js "h2")).

Definition processParagraphs (doc : list node) : action :=
  forEach (fun para => addFormattedText (textContent para) [] (named "NORMAL_TEXT"))
          (getElementsByTagName doc (js "p")).

Definition processLists (doc : list node) : action :=
  forEach (fun list =>
             forEach (fun item =>
                        addFormattedText (itemPrefix ++ textContent item) []
                                         listItemParagraph)
                     (getElementsByTagName (childNodes list) (js "li")))
          (getElementsByTagName doc (js "ul")).

Definition processCodeBlocks (doc : list node) : action :=
  forEach (fun pre => addFormattedText (textContent pre) preText preParagraph)
          (getElementsByTagName doc (js "pre")).

Section WithParser.

(** [new DOMParser().parseFromString(htmlContent, 'text/html')], as the
    child nodes of the document, with [None] for [undefined]. *)
Variable parseDocument : jsstring -> option (list node).

(** The message of the [TypeError] raised by reading the named
    property of [undefined]. *)
Variable typeError : jsstring -> jsstring.

(** The first statement after the parse reads
    [doc.getElementsByTagName]. *)
Definition htmlToGoogleDocsStructure (htmlContent : jsstring)
  : completion (list request) :=
  match parseDocument htmlContent with
  | None => Throw (typeError (js "getElementsByTagName"))
  | Some doc =>
      Return
        (requests
           (processCodeBlocks doc
              (processLists doc
                 (processParagraphs doc
                    (processSubHeadings doc
                       (processHeadings doc initial))))))
  end.

End WithParser.

End WithNameTest.

End TagOrderTransformer.

Module LayoutSpec.

(** The number of code units of a list of texts. *)
Definition total_length (texts : list jsstring) : N :=
  fold_right (fun t n => (length_of t + n)%N) 0%N texts.

(** [placed c ops]: every [insertText] of [ops] stands at [c] plus the
    number of code units inserted by the requests before it. *)
Fixpoint placed (c : N) (ops : list request) : Prop :=
  match ops with
  | [] => True
  | insertText index text :: ops' => index = c /\ placed (c + length_of text) ops'
  | _ :: ops' => placed c ops'
  end.

(** An action that appends requests which insert the given lines, one
    after the other from the cursor on, and leaves the cursor after
    them. *)
Definition writes (a : action) (lines : list jsstring) : Prop :=
  forall st, exists ops,
    a st = mkState (requests st ++ ops) (currentIndex st + total_length lines) /\
    inserted_texts ops = lines /\
    placed (currentIndex st) ops.

(** The lines that the texts of a list of elements give: blank texts
    are left out, a line feed is added. *)
Definition lines_of (elements : list node) : list jsstring :=
  flat_map (fun e => if forallb isSpace (textContent e) then []
                     else [textContent e ++ [10%N]])
           elements.

End LayoutSpec.
Import LayoutSpec.

(* ================================================================= *)
(** ** Content extraction with tables

    The [extractDocumentContent] of [index.js] also reads tables: the
    runs of a table are those of the content of its cells, row by row.
    A field that is missing where the code reads it without a test
    ([tableRows], [tableCells]) raises, and the [catch] of the function
    then returns the empty string whatever was collected before. *)

Module RichExtraction.

Inductive BodyElement : Type :=
| mkBodyElement (paragraph : option (list ParagraphElement))
                (table : option Table)
                (tableOfContents : bool)
with Table : Type :=
| mkTable (tableRows : option (list TableRow))
with TableRow : Type :=
| mkTableRow (tableCells : option (list TableCell))
with TableCell : Type :=
| mkTableCell (content : option (list BodyElement)).

Record RichDocument : Type :=
  mkRichDocument { rich_body : option (list BodyElement) }.

(** The text runs of a paragraph that have a non-empty content. *)
Definition runs (elements : list ParagraphElement) : list jsstring :=
  flat_map
    (fun el =>
       match textRun_content el with
       | Some c => if truthy c then [c] else []
       | None => []
       end)
    elements.

(** [forEach] over a callback that pushes parts or raises: the parts
    pushed, or [None] when a call raised. *)
Definition collect {A : Type} (f : A -> option (list jsstring))
  : list A -> option (list jsstring) :=
  fix each (l : list A) : option (list jsstring) :=
    match l with
    | [] => Some []
    | x :: l' =>
        match f x with
        | None => None
        | Some parts =>
            match each l' with
            | None => None
            | Some more => Some (parts ++ more)
            end
        end
    end.

(** The inner [processElement]. *)
Fixpoint processElement (element : BodyElement) : option (list jsstring) :=
  match element with
  | mkBodyElement (Some elements) _ _ => Some (runs elements)
  | mkBodyElement None (Some (mkTable None)) _ => None
  | mkBodyElement None (Some (mkTable (Some rows))) _ =>
      collect
        (fun row =>
           match row with
           | mkTableRow None => None
           | mkTableRow (Some cells) =>
               collect
                 (fun cell =>
                    match cell with
                    | mkTableCell None => Some []
                    | mkTableCell (Some cellContent) => collect processElement cellContent
                    end)
                 cells
           end)
        rows
  | mkBodyElement None None _ => Some []
  end.

Definition extractDocumentContent (docContent : RichDocument) : jsstring :=
  match rich_body docContent with
  | None => []
  | Some bodyContent =>
      match collect processElement bodyContent with
      | Some contentParts => join newline contentParts
      | None => []
      end
  end.

(** The same document for the extraction that reads paragraphs only. *)
Definition paragraphs_only (e : BodyElement) : StructuralElement :=
  match e with
  | mkBodyElement paragraph _ _ => mkStructuralElement paragraph
  end.

Definition as_document (d : RichDocument) : Document :=
  mkDocument (option_map (map paragraphs_only) (rich_body d)).

(** The element takes the paragraph branch or neither branch. *)
Definition no_table (e : BodyElement) : Prop :=
  match e with
  | mkBodyElement None (Some _) _ => False
  | _ => True
  end.

(** The content of the cells of a table, row by row. *)
Definition cell_content (cell : TableCell) : list BodyElement :=
  match cell with
  | mkTableCell (Some cellContent) => cellContent
  | mkTableCell None => []
  end.

Definition row_content (row : TableRow) : list BodyElement :=
  match row with
  | mkTableRow (Some cells) => flat_map cell_content cells
  | mkTableRow None => []
  end.

Definition complete_row (row : TableRow) : Prop :=
  match row with mkTableRow (Some _) => True | mkTableRow None => False end.

(** A table read without the fields the code expects. *)
Definition broken_table (e : BodyElement) : Prop :=
  match e with
  | mkBodyElement None (Some (mkTable None)) _ => True
  | mkBodyElement None (Some (mkTable (Some rows))) _ =>
      exists row, In row rows /\ ~ complete_row row
  | _ => False
  end.

End RichExtraction.

(* ================================================================= *)
(** ** The conversion loop of [index.js]

    The loop of [POST /api/convert] in [index.js] does not classify:
    it leaves out the documents whose lower-cased name contains
    [converted], reads the text of every other document in line, and
    converts it with the transformer that goes by tag. *)

Module ByName.

Section Loop.

Variable World : Type.
Variable services : Services World.
Variable toLowerCase : jsstring -> jsstring.
Variable sameName : jsstring -> jsstring -> bool.
Variable parseDocument : jsstring -> option (list node).

(** The message of the [TypeError] raised by reading a property of
    [undefined]. *)
Variable typeErrorMessage : jsstring.

Definition skipped (file : File) : bool :=
  str_includes (toLowerCase (name file)) (js "converted").

(** The sections with a paragraph, the non-empty text runs of each
    joined by the empty string, and the paragraphs by a line feed. *)
Definition rawContent (docContent : Document) : completion jsstring :=
  match body_content docContent with
  | None => Throw typeErrorMessage
  | Some bodyContent =>
      Return
        (join newline
           (map (fun elements => concat (RichExtraction.runs elements))
              (flat_map
                 (fun section =>
                    match paragraph_elements section with
                    | Some elements => [elements]
                    | None => []
                    end)
                 bodyContent)))
  end.

Local Notation "x <- t ;; k" := (bind t (fun x => k))
  (at level 61, t at next level, right associativity).
Local Notation "t ;;; k" := (bind t (fun _ => k))
  (at level 61, right associativity).

(** The body of the [try] block of one iteration; [continue] ends it.
    The call of [htmlToGoogleDocsStructure] stands inside the block,
    before the new document is created. *)
Definition convertFile (convertedFolderId : jsstring) (file : File) : Task World unit :=
  if skipped file then ret tt
  else
    docContent <- await (documents_get services (id file)) ;;
    content <- evaluate (rawContent docContent) ;;
    let htmlContent := marked_parse services content in
    requests <- evaluate
                  (TagOrderTransformer.htmlToGoogleDocsStructure sameName parseDocument
                     (typeError services) htmlContent) ;;
    documentId <- await (documents_create services (js "Converted-" ++ name file)) ;;
    await (documents_batchUpdate services documentId requests) ;;;
    await (files_update services documentId convertedFolderId) ;;;
    pdfBuffer <- await (files_export services documentId) ;;
    zip_addFile services (name file ++ js ".pdf") pdfBuffer ;;;
    convertedFiles_push (converted (name file) (name file ++ js ".pdf")).

Definition iteration (convertedFolderId : jsstring) (file : File) : Task World unit :=
  tryCatch (convertFile convertedFolderId file)
           (fun message => convertedFiles_push (failed (name file) message)).

Fixpoint convertAll (convertedFolderId : jsstring) (files : list File) : Task World unit :=
  match files with
  | [] => ret tt
  | file :: rest =>
      iteration convertedFolderId file ;;; convertAll convertedFolderId rest
  end.

End Loop.

End ByName.

Module ByNameSpec.

Section Outcomes.

Variable World : Type.
Variable services : Services World.
Variable toLowerCase : jsstring -> jsstring.
Variable sameName : jsstring -> jsstring -> bool.
Variable parseDocument : jsstring -> option (list node).
Variable typeErrorMessage : jsstring.
Variable convertedFolderId : jsstring.

(** What one iteration of the loop of [index.js] comes to: the
    document is left out by its name, or the [try] block runs to its
    end, or a call of the block throws. *)
Definition outcome (file : File) (st : handlerState World) : Outcome :=
  if ByName.skipped toLowerCase file then Skipped
  else
    match fst (ByName.convertFile services toLowerCase sameName parseDocument
                 typeErrorMessage convertedFolderId file st) with
    | Return _ => Converted
    | Throw message => FailedWith message
    end.

Definition outcomes (files : list File) (st : handlerState World) : list Outcome :=
  outcomesFrom
    (ByName.iteration services toLowerCase sameName parseDocument typeErrorMessage
       convertedFolderId)
    outcome files st.

(** The array [convertedFiles] when the loop is over. *)
Definition results (files : list File) (st : handlerState World) : list ConvertedFile :=
  convertedFiles
    (snd (ByName.convertAll services toLowerCase sameName parseDocument typeErrorMessage
            convertedFolderId files st)).

End Outcomes.

End ByNameSpec.

(* ================================================================= *)
(** ** The routes

    A request passes the middleware [authenticateGoogle] and then its
    handler.  What a handler leaves behind for later requests is the
    global [convertedZip] and the state of the remote services. *)

Module Headers.

(** [String.prototype.split] with a separator of one code unit; the
    space is the unit 32. *)
Fixpoint split (separator : codeunit) (s : jsstring) : list jsstring :=
  match s with
  | [] => [[]]
  | c :: s' =>
      if (c =? separator)%N then [] :: split separator s'
      else
        match split separator s' with
        | field :: fields => (c :: field) :: fields
        | [] => [[c]]
        end
  end.

(** [authHeader.split(' ')[1]], with [None] for [undefined]. *)
Definition bearerToken (authHeader : jsstring) : option jsstring :=
  nth_error (split 32%N authHeader) 1.

(** A value substituted in a template literal. *)
Definition interpolate (v : option jsstring) : jsstring :=
  match v with
  | Some s => s
  | None => js "undefined"
  end.

End Headers.
Import Headers.

Module Server.

(** The other services the routes call: the credentials of the shared
    OAuth client, [oauth2.userinfo.get], [drive.files.create] for the
    folder, [drive.files.list], and [zip.toBuffer], which reads the
    archive object of the request. *)
Record Google (World : Type) : Type := mkGoogle {
  setCredentials : option jsstring -> World -> World;
  userinfo_get : Remote World unit;
  files_create : Remote World jsstring;
  files_list : Remote World (list File);
  zip_toBuffer : World -> list N
}.

(** An entry of the answer of [GET /api/docs]. *)
Record MarkdownDoc : Type :=
  mkMarkdownDoc { listed : File; previewContent : jsstring }.

Inductive response : Type :=
| conversion (totalFiles : nat) (convertedFiles : list ConvertedFile)
             (zipDownloadLink : jsstring)
| documents (markdownDocs : list MarkdownDoc)
| archive (data : list N)
| problem (status : N) (error : jsstring) (details : option jsstring).

Section Routes.

Variable World : Type.
Variable services : Services World.
Variable google : Google World.

Record server : Type := mkServer {
  convertedZip : option (list N);
  remote : World
}.

(** A handler, given the [authorization] header of its request. *)
Definition handler : Type := jsstring -> server -> response * server.

Definition authenticateGoogle (authorization : option jsstring) (next : handler)
  : server -> response * server :=
  fun srv =>
    match authorization with
    | None => (problem 401 (js "No token provided") None, srv)
    | Some authHeader =>
        if negb (truthy authHeader) then
          (problem 401 (js "No token provided") None, srv)
        else
          let token := bearerToken authHeader in
          match userinfo_get google (setCredentials google token (remote srv)) with
          | (Return _, w) => next authHeader (mkServer (convertedZip srv) w)
          | (Throw _, w) =>
              (problem 401 (js "Invalid or expired token") None,
               mkServer (convertedZip srv) w)
          end
    end.

(** [createConvertedFolder]: its [catch] logs and throws again. *)
Definition createConvertedFolder : Remote World jsstring := files_create google.

Definition convert : handler :=
  fun authorization srv =>
    let failure message w :=
      (problem 500 (js "Conversion Failed") (Some message),
       mkServer (convertedZip srv) w) in
    match createConvertedFolder (remote srv) with
    | (Throw message, w) => failure message w
    | (Return convertedFolderId, w) =>
        match files_list google w with
        | (Throw message, w') => failure message w'
        | (Return files, w') =>
            match convertAll services convertedFolderId files
                    (mkHandlerState [] (AdmZip_new services w')) with
            | (Throw message, st) => failure message (world st)
            | (Return _, st) =>
                let zipBuffer := zip_toBuffer google (world st) in
                (conversion (length (convertedFiles st)) (convertedFiles st)
                   (js "/api/download-zip?token="
                    ++ interpolate (bearerToken authorization)),
                 mkServer (Some zipBuffer) (world st))
            end
        end
    end.

Definition downloadZip : handler :=
  fun _ srv =>
    match convertedZip srv with
    | Some data => (archive data, srv)
    | None => (problem 404 (js "No zip file available") None, srv)
    end.

(** The loop of [GET /api/docs]: an error on one document is logged
    and the loop goes on. *)
Fixpoint listMarkdown (files : list File) (markdownDocs : list MarkdownDoc) (w : World)
  : list MarkdownDoc * World :=
  match files with
  | [] => (markdownDocs, w)
  | file :: rest =>
      match documents_get services (id file) w with
      | (Return docContent, w') =>
          let content := extractDocumentContent docContent in
          if isMarkdownContent content then
            listMarkdown rest
              (markdownDocs ++ [mkMarkdownDoc file (firstn 200 content)]) w'
          else listMarkdown rest markdownDocs w'
      | (Throw _, w') => listMarkdown rest markdownDocs w'
      end
  end.

Definition docsRoute : handler :=
  fun _ srv =>
    match files_list google (remote srv) with
    | (Throw message, w) =>
        (problem 500 (js "Error processing documents") (Some message),
         mkServer (convertedZip srv) w)
    | (Return files, w) =>
        let (markdownDocs, w') := listMarkdown files [] w in
        (documents markdownDocs, mkServer (convertedZip srv) w')
    end.

End Routes.

End Server.

Module ServerSpec.

Import Server.

Definition originalFileName (e : ConvertedFile) : jsstring :=
  match e with
  | converted n _ => n
  | failed n _ => n
  end.

(** [l] is [m] with some elements left out. *)
Inductive subsequence {A : Type} : list A -> list A -> Prop :=
| subsequence_nil : subsequence [] []
| subsequence_keep x l m : subsequence l m -> subsequence (x :: l) (x :: m)
| subsequence_drop x l m : subsequence l m -> subsequence l (x :: m).

(** A section without a paragraph, or whose paragraph holds exactly
    one non-empty text run. *)
Definition single_run (section : StructuralElement) : Prop :=
  match paragraph_elements section with
  | Some elements => exists c, RichExtraction.runs elements = [c]
  | None => True
  end.

(** Lower case for the letters [A] to [Z]. *)
Definition ascii_toLowerCase (s : jsstring) : jsstring :=
  map (fun c => if ((65 <=? c) && (c <=? 90))%N then (c + 32)%N else c) s.

(** A parser that gives [undefined] for an empty source and a
    document with one heading for any other. *)
Definition heading_document (htmlContent : jsstring) : option (list node) :=
  match htmlContent with
  | [] => None
  | _ :: _ => Some [Element (js "h1") [Text (js "Title")]]
  end.

(** Services that accept every call, over the documents of
    [sample_services]. *)
Definition sample_google : Google unit :=
  mkGoogle
    (fun _ w => w)
    (fun w => (Return tt, w))
    (fun w => (Return (js "folder"), w))
    (fun w => (Return sample_files, w))
    (fun _ => [80; 75; 5; 6]%N).

Definition sample_server : server unit := mkServer None tt.

(** The services of [sample_services] over documents without text. *)
Definition blank_services : Services unit :=
  mkServices
    (fun _ w => (Return (document_of []), w))
    (documents_create sample_services)
    (documents_batchUpdate sample_services)
    (files_update sample_services)
    (files_export sample_services)
    (marked_parse sample_services)
    (parseFromString sample_services)
    (typeError sample_services)
    (AdmZip_new sample_services)
    (AdmZip_addFile sample_services).

(** The document was fetched in some state of the services, its text
    is Markdown, and the preview is the first 200 code units of it. *)
Definition previewed (World : Type) (services : Services World) (d : MarkdownDoc) : Prop :=
  exists w docContent w',
    documents_get services (id (listed d)) w = (Return docContent, w') /\
    isMarkdownContent (extractDocumentContent docContent) = true /\
    previewContent d = firstn 200 (extractDocumentContent docContent).

Section NeverConverts.

Variable World : Type.
Variable services : Services World.



End NeverConverts.


End ServerSpec.

(* ================================================================= *)
(** ** The route [POST /api/convert-2]

    This route decides with the substring detector, keeps the detected
    documents in [markdownFiles], and writes the HTML into the new
    document as one insertion.  Its answer gives the length of
    [markdownFiles] as [totalFiles]. *)

Module Convert2.

Section Route.

Variable World : Type.
Variable services : Services World.
Variable google : Server.Google World.

Record loopState : Type := mkLoopState {
  markdownFiles : list File;
  convertedFiles : list ConvertedFile;
  world : World
}.

Definition Step (A : Type) : Type := loopState -> completion A * loopState.

Definition ret {A : Type} (a : A) : Step A := fun st => (Return a, st).

Definition bind {A B : Type} (t : Step A) (k : A -> Step B) : Step B :=
  fun st =>
    match t st with
    | (Return a, st') => k a st'
    | (Throw message, st') => (Throw message, st')
    end.

Definition await {A : Type} (call : Remote World A) : Step A :=
  fun st =>
    let (c, w) := call (world st) in
    (c, mkLoopState (markdownFiles st) (convertedFiles st) w).

Definition markdownFiles_push (file : File) : Step unit :=
  fun st =>
    (Return tt,
     mkLoopState (markdownFiles st ++ [file]) (convertedFiles st) (world st)).

Definition zip_addFile (entryName : jsstring) (data : list N) : Step unit :=
  fun st =>
    (Return tt,
     mkLoopState (markdownFiles st) (convertedFiles st)
       (AdmZip_addFile services entryName data (world st))).

Definition convertedFiles_push (entry : ConvertedFile) : Step unit :=
  fun st =>
    (Return tt,
     mkLoopState (markdownFiles st) (convertedFiles st ++ [entry]) (world st)).

Definition tryCatch (body : Step unit) (handler : jsstring -> Step unit) : Step unit :=
  fun st =>
    match body st with
    | (Return tt, st') => (Return tt, st')
    | (Throw message, st') => handler message st'
    end.

Local Notation "x <- t ;; k" := (bind t (fun x => k))
  (at level 61, t at next level, right associativity).
Local Notation "t ;;; k" := (bind t (fun _ => k))
  (at level 61, right associativity).

Definition convertFile (convertedFolderId : jsstring) (file : File) : Step unit :=
  docContent <- await (documents_get services (id file)) ;;
  let content := extractDocumentContent docContent in
  if basicMarkdown content then
    markdownFiles_push file ;;;
    let htmlContent := marked_parse services content in
    documentId <- await (documents_create services (js "Converted-" ++ name file)) ;;
    await (documents_batchUpdate services documentId [insertText 1 htmlContent]) ;;;
    await (files_update services documentId convertedFolderId) ;;;
    pdfBuffer <- await (files_export services documentId) ;;
    zip_addFile (name file ++ js ".pdf") pdfBuffer ;;;
    convertedFiles_push (converted (name file) (name file ++ js ".pdf"))
  else ret tt.

Definition iteration (convertedFolderId : jsstring) (file : File) : Step unit :=
  tryCatch (convertFile convertedFolderId file)
           (fun message => convertedFiles_push (failed (name file) message)).

Fixpoint convertAll (convertedFolderId : jsstring) (files : list File) : Step unit :=
  match files with
  | [] => ret tt
  | file :: rest =>
      iteration convertedFolderId file ;;; convertAll convertedFolderId rest
  end.



End Route.



End Convert2.

(* ================================================================= *)
(** * Properties *)

(** ** Strings *)

Module JsStringFacts.

Lemma unit_before_app p s t :
  unit_before p (s ++ t) = unit_before (unit_before p s) t.
Proof. unfold unit_before. apply fold_left_app. Qed.

Lemma unit_before_snoc p s c : unit_before p (s ++ [c]) = Some c.
Proof. rewrite unit_before_app. reflexivity. Qed.

Lemma last_unit_line_start pre :
  at_bol true (last_unit pre) = true <-> line_start pre.
Proof.
  unfold last_unit, line_start.
  destruct pre as [|c pre] using rev_ind.
  - simpl. split; auto.
  - rewrite unit_before_snoc. simpl. split.
    + intros H. right. exists pre, c. auto.
    + intros [H | (pre' & c' & H & Hc)].
      * destruct pre; discriminate.
      * apply app_inj_tail in H. destruct H as [_ ->]. exact Hc.
Qed.

Lemma trimStart_nil s : trimStart s = [] <-> forallb isSpace s = true.
Proof.
  induction s as [|c s IH]; simpl.
  - split; auto.
  - destruct (isSpace c); simpl.
    + exact IH.
    + split; discriminate.
Qed.

(** [trim] leaves nothing exactly when the string holds only white
    space and line terminators. *)
Lemma trim_nil s : trim s = [] <-> forallb isSpace s = true.
Proof.
  unfold trim, trimEnd. split.
  - intros H.
    assert (Hr : trimStart (rev (trimStart s)) = []).
    { apply (f_equal (@rev codeunit)) in H. now rewrite rev_involutive in H. }
    apply trimStart_nil in Hr.
    assert (Hs : forallb isSpace (trimStart s) = true).
    { rewrite forallb_forall in *. intros x Hx. apply Hr. now apply -> in_rev. }
    clear H Hr. induction s as [|c s IH]; simpl in *; [reflexivity|].
    destruct (isSpace c) eqn:E; simpl.
    + auto.
    + simpl in Hs. rewrite E in Hs. discriminate.
  - intros H. apply trimStart_nil in H. rewrite H. reflexivity.
Qed.

Lemma truthy_trim s : truthy (trim s) = negb (forallb isSpace s).
Proof.
  destruct (forallb isSpace s) eqn:E.
  - apply trim_nil in E. rewrite E. reflexivity.
  - destruct (trim s) eqn:T; [|reflexivity].
    apply trim_nil in T. congruence.
Qed.

Lemma str_eqb_eq a b : str_eqb a b = true <-> a = b.
Proof. unfold str_eqb. destruct (list_eq_dec N.eq_dec a b); split; congruence. Qed.

Lemma str_eqb_neq a b : str_eqb a b = false <-> a <> b.
Proof. unfold str_eqb. destruct (list_eq_dec N.eq_dec a b); split; congruence. Qed.

End JsStringFacts.
Import JsStringFacts.

(** ** The matcher computes the matching relation *)

Module RegexFacts.

Section Repeat.

Variable ml : bool.
Variable r : regex.
Variable g : bool.
Variable body : continuation -> continuation.
Hypothesis body_spec : forall k p s,
  body k p s = true <-> exists p' s', Match ml r p s p' s' /\ k p' s' = true.

(** Fuel above the length of the remaining input is enough. *)
Lemma repeat_matcher_spec fuel : forall k p s,
  length s < fuel ->
  (repeat_matcher body g k fuel p s = true
   <-> exists p' s', Match ml (Star g r) p s p' s' /\ k p' s' = true).
Proof.
  induction fuel as [|fuel IH]; intros k p s Hlen; [lia|].
  cbn [repeat_matcher].
  assert (Hagain :
    body (fun prev' s' =>
            (length s' <? length s) && repeat_matcher body g k fuel prev' s') p s = true
    <-> exists p1 s1 p' s',
          Match ml r p s p1 s1 /\ length s1 < length s /\
          Match ml (Star g r) p1 s1 p' s' /\ k p' s' = true).
  { rewrite body_spec. split.
    - intros (p1 & s1 & Hm & Hk). apply andb_true_iff in Hk. destruct Hk as [Hlt Hk].
      apply Nat.ltb_lt in Hlt. apply IH in Hk; [|lia].
      destruct Hk as (p' & s' & Hs & Hk). exists p1, s1, p', s'. auto.
    - intros (p1 & s1 & p' & s' & Hm & Hlt & Hs & Hk). exists p1, s1. split; [exact Hm|].
      apply andb_true_iff. split; [now apply Nat.ltb_lt|].
      apply IH; [lia|]. exists p', s'. auto. }
  assert (Hiff :
    (body (fun prev' s' =>
            (length s' <? length s) && repeat_matcher body g k fuel prev' s') p s = true
     \/ k p s = true)
    <-> exists p' s', Match ml (Star g r) p s p' s' /\ k p' s' = true).
  { rewrite Hagain. split.
    - intros [(p1 & s1 & p' & s' & Hm & Hlt & Hs & Hk) | Hk].
      + exists p', s'. split; [|exact Hk]. eapply MStarStep; eauto.
      + exists p, s. split; [apply MStarStop | exact Hk].
    - intros (p' & s' & Hs & Hk). inversion Hs; subst.
      + right. exact Hk.
      + left. eauto 10. }
  destruct g; rewrite orb_true_iff; rewrite <- Hiff; tauto.
Qed.

End Repeat.

Theorem matcher_spec ml r : forall k p s,
  matcher ml r k p s = true
  <-> exists p' s', Match ml r p s p' s' /\ k p' s' = true.
Proof.
  induction r as [ | f | r1 IH1 r2 IH2 | r1 IH1 r2 IH2 | g r1 IH1 | r1 IH1 | | ];
    intros k p s; cbn [matcher].
  - split.
    + intros H. exists p, s. split; [constructor | exact H].
    + intros (p' & s' & H & Hk). inversion H; subst. exact Hk.
  - destruct s as [|c s].
    + split; [discriminate|]. intros (p' & s' & H & _). inversion H.
    + rewrite andb_true_iff. split.
      * intros [Hf Hk]. exists (Some c), s. split; [now constructor | exact Hk].
      * intros (p' & s' & H & Hk). inversion H; subst. auto.
  - rewrite IH1. split.
    + intros (p1 & s1 & H1 & H2). apply IH2 in H2. destruct H2 as (p2 & s2 & H2 & Hk).
      exists p2, s2. split; [econstructor; eauto | exact Hk].
    + intros (p2 & s2 & H & Hk). inversion H; subst.
      eexists _, _. split; [eassumption|]. apply IH2. eauto.
  - rewrite orb_true_iff, IH1, IH2. split.
    + intros [(p' & s' & H & Hk) | (p' & s' & H & Hk)]; exists p', s'; split; auto.
      * now apply MAltL.
      * now apply MAltR.
    + intros (p' & s' & H & Hk). inversion H; subst; [left | right]; eauto.
  - apply repeat_matcher_spec; [exact IH1 | lia].
  - rewrite IH1. split.
    + intros (p' & s' & H & Hk). exists p', s'. split; [now constructor | exact Hk].
    + intros (p' & s' & H & Hk). inversion H; subst. eauto.
  - rewrite andb_true_iff. split.
    + intros [Hb Hk]. exists p, s. split; [now constructor | exact Hk].
    + intros (p' & s' & H & Hk). inversion H; subst. auto.
  - rewrite andb_true_iff. split.
    + intros [Hb Hk]. exists p, s. split; [now constructor | exact Hk].
    + intros (p' & s' & H & Hk). inversion H; subst. auto.
Qed.

Lemma test_from_spec R : forall s p,
  test_from R p s = true
  <-> exists pre post p' s',
        s = pre ++ post /\
        Match (multiline R) (pattern R) (unit_before p pre) post p' s'.
Proof.
  induction s as [|c s IH]; intros p; cbn [test_from]; rewrite orb_true_iff, matcher_spec.
  - split.
    + intros [(p' & s' & H & _) | H]; [|discriminate].
      exists [], [], p', s'. auto.
    + intros (pre & post & p' & s' & E & H).
      symmetry in E. apply app_eq_nil in E. destruct E as [-> ->].
      left. exists p', s'. auto.
  - rewrite IH. split.
    + intros [(p' & s' & H & _) | (pre & post & p' & s' & E & H)].
      * exists [], (c :: s), p', s'. auto.
      * exists (c :: pre), post, p', s'. split; [simpl; congruence | exact H].
    + intros (pre & post & p' & s' & E & H). destruct pre as [|c' pre].
      * simpl in E, H. subst post. left. exists p', s'. auto.
      * simpl in E. injection E as -> ->. right. exists pre, post, p', s'. auto.
Qed.

(** [test] succeeds exactly when the pattern matches at some position
    of the text. *)
Theorem test_spec R s :
  test R s = true
  <-> exists pre post p' s',
        s = pre ++ post /\ Match (multiline R) (pattern R) (last_unit pre) post p' s'.
Proof. apply test_from_spec. Qed.

Lemma zero_width_stays ml r p s p' s' :
  zero_width r -> Match ml r p s p' s' -> p' = p /\ s' = s.
Proof.
  intros Hz H. induction H; simpl in Hz; try contradiction; auto.
  destruct Hz as [Hz1 Hz2].
  destruct (IHMatch1 Hz1) as [-> ->]. auto.
Qed.

Lemma leads_first P ml r p s p' s' :
  leads P r -> Match ml r p s p' s' -> exists c t, s = c :: t /\ P c.
Proof.
  intros Hl H. induction H; simpl in Hl; try contradiction.
  - eauto.
  - destruct Hl as [Hl | [Hz Hl]].
    + auto.
    + destruct (zero_width_stays Hz H) as [-> ->]. auto.
  - destruct Hl. auto.
  - destruct Hl. auto.
  - auto.
Qed.

(** A text that passes [test] holds a code unit with which the
    pattern can begin. *)
Lemma test_leads P R s :
  leads P (pattern R) -> test R s = true -> exists c, In c s /\ P c.
Proof.
  intros Hl H. apply test_spec in H. destruct H as (pre & post & p' & s' & -> & H).
  destruct (leads_first P Hl H) as (c & t & -> & Hc).
  exists c. split; [|exact Hc]. apply in_or_app. right. now left.
Qed.

End RegexFacts.
Import RegexFacts.

(** ** The patterns on sample texts *)

Module PatternExamples.

Example headers_at_line_start : test headers (js "# Title") = true.
Proof. reflexivity. Qed.

Example headers_need_space : test headers (js "#Title") = false.
Proof. reflexivity. Qed.

Example headers_mid_line : test headers (js "issue # 12") = true.
Proof. reflexivity. Qed.

Example lists_second_line : test lists (js ("intro" ++ line_break ++ "- item")) = true.
Proof. reflexivity. Qed.

Example lists_not_mid_line : test lists (js "a - b") = false.
Proof. reflexivity. Qed.

Example lists_need_text : test lists (js "- ") = false.
Proof. reflexivity. Qed.

Example numberedLists_two_digits : test numberedLists (js "12. item") = true.
Proof. reflexivity. Qed.

Example codeBlocks_fence :
  test codeBlocks (js ("```" ++ line_break ++ "x" ++ line_break ++ "```")) = true.
Proof. reflexivity. Qed.

Example inlineCode_span : test inlineCode (js "use `x` here") = true.
Proof. reflexivity. Qed.

Example inlineCode_empty_span : test inlineCode (js "``") = false.
Proof. reflexivity. Qed.

Example links_pair : test links (js "see [here](http://x)") = true.
Proof. reflexivity. Qed.

Example blockquotes_line : test blockquotes (js "> quoted") = true.
Proof. reflexivity. Qed.

Example tables_two_pipes : test tables (js "| a | b |") = true.
Proof. reflexivity. Qed.

Example tables_one_pipe : test tables (js "a | b") = false.
Proof. reflexivity. Qed.

Example horizontalRules_middle_line :
  test horizontalRules (js ("a" ++ line_break ++ "***" ++ line_break ++ "b")) = true.
Proof. reflexivity. Qed.

Example horizontalRules_too_short : test horizontalRules (js "--") = false.
Proof. reflexivity. Qed.

Example horizontalRules_whole_line : test horizontalRules (js "--- x") = false.
Proof. reflexivity. Qed.

Example trim_both_ends : trim (js "  a b  ") = js "a b".
Proof. reflexivity. Qed.

Example toString_ten : toString 10 = js "10".
Proof. reflexivity. Qed.

End PatternExamples.

(** ** The classifier *)

Module ClassifierFacts.

Ltac unfold_pattern H :=
  cbv [pattern multiline headers lists numberedLists codeBlocks inlineCode
       emphasis links blockquotes tables horizontalRules
       seqs plus at_least lit lit_units list_ascii_of_string
       chr any_of none_of dot space digit space_or_not] in H.

Ltac invert_match :=
  repeat match goal with
    | H : Match _ (Seq _ _) _ _ _ _ |- _ => inversion H; subst; clear H
    | H : Match _ (Alt _ _) _ _ _ _ |- _ => inversion H; subst; clear H
    | H : Match _ (Group _) _ _ _ _ |- _ => inversion H; subst; clear H
    | H : Match _ (Cls _) _ _ _ _ |- _ => inversion H; subst; clear H
    | H : Match _ Bol _ _ _ _ |- _ => inversion H; subst; clear H
    | H : Match _ Eps _ _ _ _ |- _ => inversion H; subst; clear H
    end.

Lemma headers_spec text : test headers text = true <-> heading_anywhere text.
Proof.
  rewrite test_spec. unfold heading_anywhere. split.
  - intros (pre & post & p' & s' & -> & H). unfold_pattern H. invert_match.
    match goal with E : (_ =? _)%N = true |- _ => apply N.eqb_eq in E; cbn in E; subst end.
    match goal with E : negb _ = true |- _ => apply negb_true_iff in E end.
    eauto 10.
  - intros (pre & c1 & c2 & post & -> & Hs & Hl).
    exists pre, (35%N :: c1 :: c2 :: post), (Some c2), post. split; [reflexivity|].
    cbv [pattern multiline headers seqs plus chr space dot].
    eapply MSeq; [apply MCls; reflexivity|].
    eapply MSeq; [apply MCls; exact Hs|].
    eapply MSeq; [apply MCls; now rewrite Hl | apply MStarStop].
Qed.

Lemma any_of_bullet c :
  existsb (N.eqb c) (js "-*+") = true <-> c = 45%N \/ c = 42%N \/ c = 43%N.
Proof.
  cbn. rewrite !orb_true_iff, !N.eqb_eq. intuition discriminate.
Qed.

Lemma lists_spec text : test lists text = true <-> bullet_line text.
Proof.
  rewrite test_spec. unfold bullet_line. split.
  - intros (pre & post & p' & s' & -> & H). unfold_pattern H. invert_match.
    match goal with E : (_ || _) = true |- _ => apply any_of_bullet in E end.
    match goal with E : negb _ = true |- _ => apply negb_true_iff in E end.
    match goal with E : at_bol true _ = true |- _ => apply last_unit_line_start in E end.
    eauto 12.
  - intros (pre & b & c1 & c2 & post & -> & Hp & Hb & Hs & Hl).
    exists pre, (b :: c1 :: c2 :: post), (Some c2), post. split; [reflexivity|].
    cbv [pattern multiline lists seqs plus any_of space dot].
    eapply MSeq; [apply MBol; now apply last_unit_line_start|].
    eapply MSeq; [apply MCls; now apply any_of_bullet|].
    eapply MSeq; [apply MCls; exact Hs|].
    eapply MSeq; [apply MCls; now rewrite Hl | apply MStarStop].
Qed.

Lemma emphasis_spec text : test emphasis text = true <-> emphasis_marker text.
Proof.
  rewrite test_spec. unfold emphasis_marker. split.
  - intros (pre & post & p' & s' & -> & H). unfold_pattern H. invert_match;
      repeat match goal with
        | E : (_ =? _)%N = true |- _ => apply N.eqb_eq in E; cbn in E; subst
        end;
      rewrite !in_app_iff; simpl; auto.
  - intros [H | H]; apply in_split in H; destruct H as (l1 & l2 & ->).
    + exists l1, (42%N :: l2), (Some 42%N), l2. split; [reflexivity|].
      cbv [pattern multiline emphasis lit lit_units list_ascii_of_string chr].
      apply MGroup, MAltR, MAltL, MCls. reflexivity.
    + exists l1, (95%N :: l2), (Some 95%N), l2. split; [reflexivity|].
      cbv [pattern multiline emphasis lit lit_units list_ascii_of_string chr].
      apply MGroup, MAltR, MAltR, MAltR, MCls. reflexivity.
Qed.

Lemma hasImportantPatterns_spec text :
  hasImportantPatterns text = true
  <-> heading_anywhere text \/ bullet_line text \/ emphasis_marker text.
Proof.
  unfold hasImportantPatterns.
  rewrite !orb_true_iff, headers_spec, lists_spec, emphasis_spec. tauto.
Qed.

(** *** Every pattern begins with a character that is not white space *)

Ltac pick_opener := unfold opener; cbn; solve [repeat ((left; reflexivity) || right)].

Lemma opener_chr a :
  opener (N_of_ascii a) -> forall c, (N_of_ascii a =? c)%N = true -> opener c.
Proof. intros H c Hc. apply N.eqb_eq in Hc. now subst. Qed.

Lemma opener_any set :
  Forall opener (js set) -> forall c, existsb (N.eqb c) (js set) = true -> opener c.
Proof.
  intros H c Hc. apply existsb_exists in Hc. destruct Hc as (x & Hx & E).
  apply N.eqb_eq in E. subst x. rewrite Forall_forall in H. auto.
Qed.

Lemma opener_digit c : ((48 <=? c) && (c <=? 57))%N = true -> opener c.
Proof.
  intros H. apply andb_true_iff in H. destruct H as [H1 H2].
  apply N.leb_le in H1. apply N.leb_le in H2.
  assert (E : (c = 48 \/ c = 49 \/ c = 50 \/ c = 51 \/ c = 52 \/
               c = 53 \/ c = 54 \/ c = 55 \/ c = 56 \/ c = 57)%N) by lia.
  repeat (destruct E as [-> | E]; [pick_opener|]). subst. pick_opener.
Qed.

Ltac solve_cls :=
  first [ apply opener_chr; pick_opener
        | apply opener_any; cbn [js map list_ascii_of_string];
          repeat (apply Forall_cons; [pick_opener|]); apply Forall_nil
        | exact opener_digit ].

Ltac solve_leads :=
  lazymatch goal with
  | |- _ /\ _ => split; solve_leads
  | |- _ \/ _ => first [ left; solve_leads | right; split; [exact I | solve_leads] ]
  | |- forall c, _ -> opener c => solve_cls
  end.

Lemma patterns_lead :
  Forall (fun entry => leads opener (pattern (snd entry))) markdownPatterns.
Proof.
  unfold markdownPatterns.
  repeat (apply Forall_cons;
          [ cbv [snd pattern headers lists numberedLists codeBlocks inlineCode
                 emphasis links blockquotes tables horizontalRules
                 seqs plus at_least lit lit_units list_ascii_of_string
                 chr any_of digit leads zero_width];
            solve_leads | ]).
  apply Forall_nil.
Qed.

Lemma openers_not_space c : opener c -> isSpace c = false.
Proof.
  unfold opener. cbn. intros H.
  repeat (destruct H as [<- | H]; [reflexivity|]). contradiction.
Qed.

(** A text made of white space and line terminators matches none of
    the ten patterns. *)
Lemma blank_matches_nothing text :
  forallb isSpace text = true -> matchedPatterns text = [].
Proof.
  intros Hb. unfold matchedPatterns.
  destruct (filter _ markdownPatterns) as [|e l] eqn:E; [reflexivity|].
  assert (He : In e (filter (fun entry => test (snd entry) text) markdownPatterns))
    by (rewrite E; now left).
  apply filter_In in He. destruct He as [Hin Ht].
  pose proof patterns_lead as Hl. rewrite Forall_forall in Hl.
  destruct (test_leads opener _ _ (Hl e Hin) Ht) as (c & Hc & Ho).
  rewrite forallb_forall in Hb. apply openers_not_space in Ho.
  rewrite (Hb c Hc) in Ho. discriminate.
Qed.

(** *** The list of matched patterns *)

Lemma matched_iff text entry :
  In entry (matchedPatterns text)
  <-> In entry markdownPatterns /\ test (snd entry) text = true.
Proof. unfold matchedPatterns. apply filter_In. Qed.

Lemma unmatched_false text name R :
  In (name, R) markdownPatterns ->
  ~ In (name, R) (matchedPatterns text) -> test R text = false.
Proof.
  intros Hin Hn. destruct (test R text) eqn:E; [|reflexivity].
  exfalso. apply Hn. apply matched_iff. auto.
Qed.

Lemma markdownPatterns_cases name R :
  In (name, R) markdownPatterns ->
  R = headers \/ R = lists \/ R = emphasis \/ In name minor_signals.
Proof.
  cbn. intros H.
  repeat (destruct H as [H | H]; [injection H as <- <-; tauto|]).
  contradiction.
Qed.

Lemma minor_signal_names name :
  In name minor_signals ->
  name <> "headers"%string /\ name <> "lists"%string /\ name <> "emphasis"%string.
Proof.
  cbn. intros H.
  repeat (destruct H as [<- | H]; [repeat split; discriminate|]).
  contradiction.
Qed.

Lemma NoDup_names_filter (f : string * RegExp -> bool) l :
  NoDup (map fst l) -> NoDup (map fst (filter f l)).
Proof.
  induction l as [|e l IH]; cbn; [auto|].
  intros H. inversion H as [|x xs Hx Hxs]; subst.
  destruct (f e); cbn; [|auto].
  constructor; [|auto].
  intros Hin. apply Hx. apply in_map_iff in Hin. destruct Hin as (e' & E & Hin).
  apply filter_In in Hin. apply in_map_iff. exists e'. tauto.
Qed.

Lemma markdownPatterns_names_NoDup : NoDup (map fst markdownPatterns).
Proof.
  cbn.
  repeat (constructor;
          [cbn; intros H; repeat (destruct H as [H | H]; [discriminate H|]); exact H|]).
  constructor.
Qed.

(** The length test of the return expression: two patterns of
    different names match. *)
Lemma two_signals_spec text :
  2 <= length (matchedPatterns text) <-> two_signals text.
Proof.
  pose proof (@NoDup_names_filter (fun entry => test (snd entry) text)
                markdownPatterns markdownPatterns_names_NoDup) as Hnd.
  fold (matchedPatterns text) in Hnd.
  unfold two_signals. split.
  - intros Hlen.
    assert (Hall : forall e, In e (matchedPatterns text) ->
                   In e markdownPatterns /\ test (snd e) text = true)
      by (intros e; apply matched_iff).
    destruct (matchedPatterns text) as [|[n1 R1] [|[n2 R2] l]]; cbn in Hlen; try lia.
    destruct (Hall (n1, R1)) as [Hi1 Ht1]; [now left|].
    destruct (Hall (n2, R2)) as [Hi2 Ht2]; [right; now left|].
    exists n1, R1, n2, R2. repeat split; auto.
    cbn in Hnd. inversion Hnd as [|x xs Hx _]; subst.
    intros ->. apply Hx. now left.
  - intros (n1 & R1 & n2 & R2 & Hne & Hi1 & Hi2 & Ht1 & Ht2).
    assert (H1 : In (n1, R1) (matchedPatterns text)) by (apply matched_iff; auto).
    assert (H2 : In (n2, R2) (matchedPatterns text)) by (apply matched_iff; auto).
    destruct (matchedPatterns text) as [|e1 [|e2 l]]; cbn; try lia.
    + contradiction.
    + destruct H1 as [E1 | []]. destruct H2 as [E2 | []]. congruence.
Qed.

Lemma no_match_not_markdown text :
  matchedPatterns text = [] -> isMarkdownContent text = false.
Proof.
  intros H. unfold isMarkdownContent, hasImportantPatterns. rewrite H.
  rewrite (@unmatched_false text "headers" headers),
          (@unmatched_false text "lists" lists),
          (@unmatched_false text "emphasis" emphasis);
    try reflexivity; try (rewrite H; simpl; tauto); cbn; tauto.
Qed.

Lemma single_minor_not_markdown text name R :
  matchedPatterns text = [(name, R)] ->
  name <> "headers"%string -> name <> "lists"%string -> name <> "emphasis"%string ->
  isMarkdownContent text = false.
Proof.
  intros H H1 H2 H3. unfold isMarkdownContent, hasImportantPatterns. rewrite H.
  rewrite (@unmatched_false text "headers" headers),
          (@unmatched_false text "lists" lists),
          (@unmatched_false text "emphasis" emphasis);
    try reflexivity;
    try (rewrite H; simpl; intros [E | []]; injection E as E _; congruence);
    cbn; tauto.
Qed.

End ClassifierFacts.
Import ClassifierFacts.

Module ClassifierTheorems.

(** C1 (as amended).  [isMarkdownContent] answers [true] exactly when
    at least two of the ten patterns match the text, or one of the
    three deciding signals does: a heading, which is a [#] followed by
    a white-space character and one more character on the same line
    anywhere in the text, not only at the start of a line; a bullet
    line; or an emphasis marker. *)
Theorem isMarkdownContent_rule text :
  isMarkdownContent text = true
  <-> two_signals text
      \/ heading_anywhere text \/ bullet_line text \/ emphasis_marker text.
Proof.
  unfold isMarkdownContent.
  rewrite orb_true_iff, Nat.leb_le, hasImportantPatterns_spec, two_signals_spec.
  tauto.
Qed.

(** C1, counterexample.  In the text [a # b] no line begins with [#],
    and no other signal is present, so the rule with the heading
    signal anchored at the start of a line answers [false]; the code
    answers [true]. *)
Lemma heading_mid_line_counterexample :
  isMarkdownContent (js "a # b") = true /\
  classify_as_specified (js "a # b") = false.
Proof. split; vm_compute; reflexivity. Qed.

(** C7 (as amended).  [isMarkdownContent] answers [false] exactly when
    no pattern matches the text, or a single pattern matches and it
    is one of the seven that do not decide alone; every text that
    matches two patterns, or a heading, bullet-list or emphasis
    pattern, is classified as Markdown. *)
Theorem isMarkdownContent_false_iff text :
  isMarkdownContent text = false
  <-> matchedPatterns text = []
      \/ exists name R, matchedPatterns text = [(name, R)] /\ In name minor_signals.
Proof.
  split.
  - intros H. unfold isMarkdownContent, hasImportantPatterns in H.
    rewrite !orb_false_iff in H. destruct H as (Hlen & (Hh & Hl) & He).
    apply Nat.leb_gt in Hlen.
    destruct (matchedPatterns text) as [|[name R] [|e l]] eqn:E; simpl in Hlen;
      [now left | right | lia].
    exists name, R. split; [reflexivity|].
    assert (Hin : In (name, R) (matchedPatterns text)) by (rewrite E; now left).
    apply matched_iff in Hin. destruct Hin as [Hin Ht]. simpl in Ht.
    destruct (markdownPatterns_cases Hin) as [-> | [-> | [-> | Hm]]];
      congruence || exact Hm.
  - intros [H | (name & R & H & Hm)].
    + now apply no_match_not_markdown.
    + destruct (minor_signal_names Hm) as (H1 & H2 & H3).
      eapply single_minor_not_markdown; eauto.
Qed.

(** C7, counterexample.  The text [| a | b |] matches the table
    pattern and nothing else, and is not classified as Markdown. *)
Lemma single_table_signal_counterexample :
  map fst (matchedPatterns (js "| a | b |")) = ["tables"%string] /\
  isMarkdownContent (js "| a | b |") = false.
Proof. split; vm_compute; reflexivity. Qed.

(** C8 (as amended).  A text that matches exactly one of the ten
    patterns of the code, and that pattern is not the heading, the
    bullet-list or the emphasis pattern, is not classified as
    Markdown.  The heading pattern of the code matches a [#] followed
    by white space and one more character anywhere in the text. *)
Theorem single_minor_signal_is_not_markdown text name R :
  matchedPatterns text = [(name, R)] ->
  name <> "headers"%string -> name <> "lists"%string -> name <> "emphasis"%string ->
  isMarkdownContent text = false.
Proof. apply single_minor_not_markdown. Qed.

(** C8, witness: a text whose only signal is a table row. *)
Lemma single_minor_signal_witness :
  matchedPatterns (js "| a | b |") = [("tables"%string, tables)] /\
  isMarkdownContent (js "| a | b |") = false.
Proof.
  assert (H : matchedPatterns (js "| a | b |") = [("tables"%string, tables)])
    by (vm_compute; reflexivity).
  split; [exact H|].
  apply (@single_minor_signal_is_not_markdown _ _ _ H); discriminate.
Defined.

(** C8, counterexample.  With the signals as the specification lists
    them, the heading signal anchored at the start of a line, the text
    [a # b | c |] matches the table signal and no other, yet the code
    classifies it as Markdown: its heading pattern matches the [#] in
    the middle of the line. *)
Lemma table_row_with_hash_counterexample :
  map fst (filter (fun entry => test (snd entry) (js "a # b | c |"))
                  patterns_as_specified)
  = ["tables"%string] /\
  isMarkdownContent (js "a # b | c |") = true.
Proof. split; vm_compute; reflexivity. Qed.

(** C9 (as amended).  A text that matches none of the ten patterns of
    the code is not classified as Markdown; in particular the empty
    text and every text made only of white space and line
    terminators.  The heading pattern of the code matches a [#]
    followed by white space and one more character anywhere in the
    text. *)
Theorem no_signal_is_not_markdown :
  (forall text, matchedPatterns text = [] -> isMarkdownContent text = false) /\
  isMarkdownContent [] = false /\
  (forall text, forallb isSpace text = true -> isMarkdownContent text = false).
Proof.
  split; [exact no_match_not_markdown|]. split; [reflexivity|].
  intros text H. apply no_match_not_markdown. now apply blank_matches_nothing.
Qed.

(** C9, witness: a plain sentence, and a line of blanks, tabs and
    line breaks. *)
Lemma no_signal_witness :
  isMarkdownContent (js "plain text") = false /\
  isMarkdownContent [32; 9; 10; 13; 160; 8232]%N = false.
Proof.
  destruct no_signal_is_not_markdown as (Hnone & _ & Hblank).
  split.
  - apply Hnone. vm_compute. reflexivity.
  - apply Hblank. vm_compute. reflexivity.
Defined.

(** C9, counterexample.  With the signals as the specification lists
    them, the text [Flat # 12] matches none of the ten, yet the code
    classifies it as Markdown. *)
Lemma hash_inside_line_counterexample :
  filter (fun entry => test (snd entry) (js "Flat # 12")) patterns_as_specified = [] /\
  isMarkdownContent (js "Flat # 12") = true.
Proof. split; vm_compute; reflexivity. Qed.

End ClassifierTheorems.


(* ================================================================= *)
(** * Further properties *)

(** ** Patterns and added lines *)

Module RegexLineFacts.

Lemma Match_consumes ml r p s p' s' :
  Match ml r p s p' s' -> exists u, s = u ++ s' /\ p' = unit_before p u.
Proof.
  induction 1 as
    [ p s | f p c s Hf | r1 r2 p s p1 s1 p2 s2 H1 IH1 H2 IH2
    | r1 r2 p s p' s' H IH | r1 r2 p s p' s' H IH | g r p s
    | g r p s p1 s1 p2 s2 H1 IH1 Hlt H2 IH2 | r p s p' s' H IH | p s Hb | p s He ];
    try (exists []; split; reflexivity); try exact IH.
  - exists [c]. split; reflexivity.
  - destruct IH1 as (u1 & -> & ->). destruct IH2 as (u2 & -> & ->).
    exists (u1 ++ u2). now rewrite app_assoc, unit_before_app.
  - destruct IH1 as (u1 & -> & ->). destruct IH2 as (u2 & -> & ->).
    exists (u1 ++ u2). now rewrite app_assoc, unit_before_app.
Qed.

(** A match stays a match when a line terminator and more text follow
    the input. *)
Lemma Match_line_after ml r p s p' s' nl u :
  isLineTerminator nl = true ->
  ml = true \/ has_anchor r = false ->
  Match ml r p s p' s' ->
  Match ml r p (s ++ nl :: u) p' (s' ++ nl :: u).
Proof.
  intros Hnl Ha H. induction H; cbn [has_anchor] in Ha.
  - constructor.
  - cbn [app]. now constructor.
  - eapply MSeq.
    + apply IHMatch1. destruct Ha as [Ha | Ha]; [now left|].
      apply orb_false_iff in Ha. tauto.
    + apply IHMatch2. destruct Ha as [Ha | Ha]; [now left|].
      apply orb_false_iff in Ha. tauto.
  - apply MAltL, IHMatch. destruct Ha as [Ha | Ha]; [now left|].
    apply orb_false_iff in Ha. tauto.
  - apply MAltR, IHMatch. destruct Ha as [Ha | Ha]; [now left|].
    apply orb_false_iff in Ha. tauto.
  - constructor.
  - eapply MStarStep.
    + apply IHMatch1. exact Ha.
    + rewrite !length_app. lia.
    + apply IHMatch2. exact Ha.
  - apply MGroup, IHMatch. exact Ha.
  - now constructor.
  - destruct Ha as [-> | Ha]; [|discriminate].
    constructor. destruct s as [|c s]; cbn in *; [now rewrite Hnl | assumption].
Qed.

Lemma same_line_start_refl p : same_line_start p p.
Proof. now left. Qed.

(** A match at the start of the text is a match after a line
    terminator. *)
Lemma Match_line_before ml r p s p' s' :
  ml = true \/ has_anchor r = false ->
  Match ml r p s p' s' ->
  forall q, same_line_start p q ->
  exists q', same_line_start p' q' /\ Match ml r q s q' s'.
Proof.
  intros Ha H. induction H; cbn [has_anchor] in Ha; intros q Hq.
  - exists q. split; [exact Hq | constructor].
  - exists (Some c). split; [apply same_line_start_refl | now constructor].
  - assert (Ha1 : ml = true \/ has_anchor r1 = false)
      by (destruct Ha as [Ha | Ha]; [now left | apply orb_false_iff in Ha; tauto]).
    assert (Ha2 : ml = true \/ has_anchor r2 = false)
      by (destruct Ha as [Ha | Ha]; [now left | apply orb_false_iff in Ha; tauto]).
    destruct (IHMatch1 Ha1 q Hq) as (q1 & Hq1 & M1).
    destruct (IHMatch2 Ha2 q1 Hq1) as (q2 & Hq2 & M2).
    exists q2. split; [exact Hq2 | econstructor; eauto].
  - assert (Ha1 : ml = true \/ has_anchor r1 = false)
      by (destruct Ha as [Ha | Ha]; [now left | apply orb_false_iff in Ha; tauto]).
    destruct (IHMatch Ha1 q Hq) as (q' & Hq' & M). exists q'. split; [exact Hq' | now apply MAltL].
  - assert (Ha2 : ml = true \/ has_anchor r2 = false)
      by (destruct Ha as [Ha | Ha]; [now left | apply orb_false_iff in Ha; tauto]).
    destruct (IHMatch Ha2 q Hq) as (q' & Hq' & M). exists q'. split; [exact Hq' | now apply MAltR].
  - exists q. split; [exact Hq | constructor].
  - destruct (IHMatch1 Ha q Hq) as (q1 & Hq1 & M1).
    destruct (IHMatch2 Ha q1 Hq1) as (q2 & Hq2 & M2).
    exists q2. split; [exact Hq2 | eapply MStarStep; eauto].
  - destruct (IHMatch Ha q Hq) as (q' & Hq' & M). exists q'. split; [exact Hq' | now apply MGroup].
  - exists q. split; [exact Hq|]. constructor.
    destruct Hq as [<- | (-> & c & -> & Hc)]; [assumption|].
    destruct Ha as [-> | Ha]; [|discriminate]. cbn. exact Hc.
  - exists q. split; [exact Hq | now constructor].
Qed.

Lemma unit_before_nonempty p q s : s <> [] -> unit_before p s = unit_before q s.
Proof.
  destruct s as [|c s] using rev_ind; [congruence|].
  intros _. now rewrite !unit_before_snoc.
Qed.

Lemma test_line_after R s nl u :
  isLineTerminator nl = true -> line_anchored R = true ->
  test R s = true -> test R (s ++ nl :: u) = true.
Proof.
  intros Hnl Ha H. apply test_spec in H. destruct H as (pre & post & p' & s' & -> & H).
  apply test_spec. exists pre, (post ++ nl :: u), p', (s' ++ nl :: u).
  split; [now rewrite app_assoc|].
  apply Match_line_after; auto.
  unfold line_anchored in Ha. apply orb_true_iff in Ha.
  destruct Ha as [Ha | Ha]; [now left | right]. now apply negb_true_iff.
Qed.

Lemma test_line_before R s nl t :
  isLineTerminator nl = true -> line_anchored R = true ->
  test R s = true -> test R (t ++ nl :: s) = true.
Proof.
  intros Hnl Ha H. apply test_spec in H. destruct H as (pre & post & p' & s' & -> & H).
  assert (Ha' : multiline R = true \/ has_anchor (pattern R) = false).
  { unfold line_anchored in Ha. apply orb_true_iff in Ha.
    destruct Ha as [Ha | Ha]; [now left | right]. now apply negb_true_iff. }
  assert (Hs : same_line_start (last_unit pre) (last_unit (t ++ nl :: pre))).
  { unfold last_unit. replace (t ++ nl :: pre) with ((t ++ [nl]) ++ pre)
      by (now rewrite <- app_assoc).
    rewrite (unit_before_app None (t ++ [nl]) pre), unit_before_snoc.
    destruct pre as [|c pre].
    - right. split; [reflexivity|]. exists nl. auto.
    - left. apply unit_before_nonempty. discriminate. }
  destruct (Match_line_before Ha' H Hs) as (q' & _ & M).
  apply test_spec. exists (t ++ nl :: pre), post, q', s'.
  split; [|exact M]. now rewrite <- app_assoc.
Qed.

End RegexLineFacts.
Import RegexLineFacts.

(** ** Further properties of the classifier *)

Module ClassifierExtraFacts.

Lemma patterns_line_anchored :
  Forall (fun entry => line_anchored (snd entry) = true) markdownPatterns.
Proof. repeat constructor. Qed.

Lemma filter_length_mono {A} (f g : A -> bool) l :
  (forall x, In x l -> f x = true -> g x = true) ->
  length (filter f l) <= length (filter g l).
Proof.
  induction l as [|x l IH]; intros H; cbn [filter]; [lia|].
  assert (IH' : length (filter f l) <= length (filter g l))
    by (apply IH; intros y Hy; apply H; now right).
  destruct (f x) eqn:Ef.
  - rewrite (H x (or_introl eq_refl) Ef). cbn. lia.
  - destruct (g x); cbn; lia.
Qed.

(** A verdict of Markdown survives any change of the text that keeps
    every match of the ten patterns. *)
Lemma isMarkdownContent_mono text text' :
  (forall entry, In entry markdownPatterns ->
                 test (snd entry) text = true -> test (snd entry) text' = true) ->
  isMarkdownContent text = true -> isMarkdownContent text' = true.
Proof.
  intros H. unfold isMarkdownContent, hasImportantPatterns, matchedPatterns.
  rewrite !orb_true_iff, !Nat.leb_le. intros [Hlen | [[Hh | Hl] | He]].
  - left. eapply Nat.le_trans; [exact Hlen|]. now apply filter_length_mono.
  - right. left. left. apply (H ("headers"%string, headers)); [cbn; tauto | exact Hh].
  - right. left. right. apply (H ("lists"%string, lists)); [cbn; tauto | exact Hl].
  - right. right. apply (H ("emphasis"%string, emphasis)); [cbn; tauto | exact He].
Qed.

(** *** Characters that a match must contain *)

Lemma needs_consumed P ml r p s p' s' :
  needs P r -> Match ml r p s p' s' ->
  exists u c, s = u ++ s' /\ In c u /\ P c.
Proof.
  intros Hn H. induction H; cbn [needs] in Hn; try contradiction.
  - exists [c], c. cbn. auto.
  - destruct (Match_consumes H) as (u1 & E1 & _).
    destruct (Match_consumes H0) as (u2 & E2 & _).
    destruct Hn as [Hn | Hn].
    + destruct (IHMatch1 Hn) as (u & c & E & Hin & Hc).
      rewrite E1 in E. apply app_inv_tail in E.
      exists (u1 ++ u2), c. subst. rewrite <- app_assoc. rewrite in_app_iff. auto.
    + destruct (IHMatch2 Hn) as (u & c & E & Hin & Hc).
      rewrite E2 in E. apply app_inv_tail in E.
      exists (u1 ++ u2), c. subst. rewrite <- app_assoc. rewrite in_app_iff. auto.
  - destruct Hn. auto.
  - destruct Hn. auto.
  - auto.
Qed.

Lemma test_needs P R s :
  needs P (pattern R) -> test R s = true -> exists c, In c s /\ P c.
Proof.
  intros Hn H. apply test_spec in H. destruct H as (pre & post & p' & s' & -> & H).
  destruct (needs_consumed P Hn H) as (u & c & -> & Hin & Hc).
  exists c. split; [|exact Hc]. rewrite !in_app_iff. auto.
Qed.

Lemma marker_chr a :
  is_marker (N_of_ascii a) = true ->
  forall c, (N_of_ascii a =? c)%N = true -> marker c.
Proof. intros H c Hc. apply N.eqb_eq in Hc. now subst. Qed.

Lemma marker_any set :
  forallb is_marker (js set) = true ->
  forall c, existsb (N.eqb c) (js set) = true -> marker c.
Proof.
  intros H c Hc. apply existsb_exists in Hc. destruct Hc as (x & Hx & E).
  apply N.eqb_eq in E. subst x. rewrite forallb_forall in H. now apply H.
Qed.

Ltac solve_marker_cls :=
  first [ apply marker_chr; reflexivity
        | apply marker_any; reflexivity ].

Ltac solve_needs :=
  lazymatch goal with
  | |- _ /\ _ => split; solve_needs
  | |- _ \/ _ => first [ left; solve_needs | right; solve_needs ]
  | |- forall c, _ -> marker c => solve_marker_cls
  end.

Lemma patterns_need_marker :
  Forall (fun entry => needs marker (pattern (snd entry))) markdownPatterns.
Proof.
  unfold markdownPatterns.
  repeat (apply Forall_cons;
          [ cbv [snd pattern headers lists numberedLists codeBlocks inlineCode
                 emphasis links blockquotes tables horizontalRules
                 seqs plus at_least lit lit_units list_ascii_of_string
                 chr any_of digit needs];
            solve_needs | ]).
  apply Forall_nil.
Qed.

Lemma no_marker_no_match text :
  existsb is_marker text = false -> matchedPatterns text = [].
Proof.
  intros Hm. unfold matchedPatterns.
  destruct (filter _ markdownPatterns) as [|e l] eqn:E; [reflexivity|].
  assert (He : In e (filter (fun entry => test (snd entry) text) markdownPatterns))
    by (rewrite E; now left).
  apply filter_In in He. destruct He as [Hin Ht].
  pose proof patterns_need_marker as Hl. rewrite Forall_forall in Hl.
  destruct (test_needs marker _ _ (Hl e Hin) Ht) as (c & Hc & Ho).
  assert (Hex : existsb is_marker text = true)
    by (apply existsb_exists; exists c; auto).
  congruence.
Qed.

(** *** Fenced code *)

Lemma star_class_run ml g f run : forall p rest,
  forallb f run = true ->
  Match ml (Star g (Cls f)) p (run ++ rest) (unit_before p run) rest.
Proof.
  induction run as [|c run IH]; intros p rest H.
  - constructor.
  - cbn in H. apply andb_true_iff in H. destruct H as [Hc Hr]. cbn [app].
    eapply MStarStep.
    + constructor. exact Hc.
    + cbn. lia.
    + apply IH. exact Hr.
Qed.

(** The leading run of code units other than the backtick. *)
Lemma leading_run (l tail : jsstring) :
  exists run rest,
    l ++ backtick :: tail = run ++ backtick :: rest /\
    forallb (fun c => negb (c =? backtick)%N) run = true.
Proof.
  induction l as [|y l IH].
  - exists [], tail. auto.
  - destruct (y =? backtick)%N eqn:E.
    + apply N.eqb_eq in E. subst y. exists [], (l ++ backtick :: tail). auto.
    + destruct IH as (run & rest & Er & Hr).
      exists (y :: run), rest. cbn. rewrite Er, E, Hr. auto.
Qed.

(** Between two backticks, a text with a code unit that is not a
    backtick holds a run of such code units enclosed in backticks. *)
Lemma enclosed_run (l tail : jsstring) :
  (exists c, In c l /\ c <> backtick) ->
  exists l1 x run l2,
    backtick :: l ++ backtick :: tail = l1 ++ backtick :: x :: run ++ backtick :: l2 /\
    forallb (fun c => negb (c =? backtick)%N) (x :: run) = true.
Proof.
  induction l as [|y l IH]; intros (c & Hin & Hc); [contradiction|].
  destruct (y =? backtick)%N eqn:E.
  - apply N.eqb_eq in E. subst y.
    destruct Hin as [E | Hin]; [congruence|].
    destruct IH as (l1 & x & run & l2 & Er & Hr); [eauto|].
    exists (backtick :: l1), x, run, l2. cbn [app]. now rewrite Er.
  - destruct (leading_run l tail) as (run & rest & Er & Hr).
    exists [], y, run, rest. cbn [app]. rewrite Er. split; [reflexivity|].
    cbn. now rewrite E, Hr.
Qed.

Lemma codeBlocks_fenced pre body post :
  test codeBlocks (pre ++ fence ++ body ++ fence ++ post) = true.
Proof.
  apply test_spec.
  exists pre, (fence ++ body ++ fence ++ post), (Some backtick), post.
  split; [reflexivity|].
  cbv [pattern multiline codeBlocks seqs lit lit_units list_ascii_of_string chr
       space_or_not fence].
  change (js "```") with [backtick; backtick; backtick]. cbn [app].
  eapply MSeq.
  { eapply MSeq; [apply MCls; reflexivity|].
    eapply MSeq; [apply MCls; reflexivity|]. apply MCls; reflexivity. }
  eapply MSeq.
  { apply (star_class_run false false (fun c => isSpace c || negb (isSpace c))
             body (Some backtick) (backtick :: backtick :: backtick :: post)).
    apply forallb_forall. intros c _. now destruct (isSpace c). }
  eapply MSeq; [apply MCls; reflexivity|].
  eapply MSeq; [apply MCls; reflexivity|]. apply MCls; reflexivity.
Qed.

Lemma inlineCode_enclosed l1 x run l2 :
  forallb (fun c => negb (c =? backtick)%N) (x :: run) = true ->
  test inlineCode (l1 ++ backtick :: x :: run ++ backtick :: l2) = true.
Proof.
  intros H. cbn in H. apply andb_true_iff in H. destruct H as [Hx Hr].
  assert (Hcls : forall c, negb (c =? backtick)%N = true ->
                 negb (existsb (N.eqb c) (js "`")) = true).
  { intros c Hc. cbn. now rewrite orb_false_r. }
  apply test_spec.
  exists l1, (backtick :: x :: run ++ backtick :: l2), (Some backtick), l2.
  split; [reflexivity|].
  cbv [pattern multiline inlineCode seqs plus chr none_of].
  eapply MSeq; [apply MCls; reflexivity|].
  eapply MSeq.
  { eapply MSeq; [apply MCls; now apply Hcls|].
    apply star_class_run. apply forallb_forall. intros c Hc.
    apply Hcls. rewrite forallb_forall in Hr. now apply Hr. }
  apply MCls. reflexivity.
Qed.

Lemma not_backtick_chr a :
  N_of_ascii a <> backtick ->
  forall c, (N_of_ascii a =? c)%N = true -> not_backtick c.
Proof. intros Ha c Hc. apply N.eqb_eq in Hc. now subst. Qed.

Lemma not_backtick_any set :
  forallb (fun x => negb (x =? backtick)%N) (js set) = true ->
  forall c, existsb (N.eqb c) (js set) = true -> not_backtick c.
Proof.
  intros Hs c Hc. apply existsb_exists in Hc. destruct Hc as (x & Hx & E).
  apply N.eqb_eq in E. subst x. rewrite forallb_forall in Hs.
  specialize (Hs c Hx). apply negb_true_iff, N.eqb_neq in Hs. exact Hs.
Qed.

Lemma not_backtick_digit c : ((48 <=? c) && (c <=? 57))%N = true -> not_backtick c.
Proof.
  intros Hc. apply andb_true_iff in Hc. destruct Hc as [H1 H2].
  apply N.leb_le in H1, H2. unfold not_backtick, backtick. lia.
Qed.

Lemma not_backtick_none c :
  negb (existsb (N.eqb c) (js "`")) = true -> not_backtick c.
Proof.
  intros Hc. apply negb_true_iff in Hc. cbn in Hc. rewrite orb_false_r in Hc.
  apply N.eqb_neq in Hc. exact Hc.
Qed.

Ltac solve_not_backtick :=
  lazymatch goal with
  | |- _ /\ _ => split; solve_not_backtick
  | |- _ \/ _ => first [ left; solve_not_backtick | right; solve_not_backtick ]
  | |- forall c, _ -> not_backtick c =>
      first [ apply not_backtick_chr; discriminate
            | apply not_backtick_any; reflexivity
            | exact not_backtick_digit
            | exact not_backtick_none ]
  end.

(** Every pattern but the fence pattern needs a code unit that is not
    a backtick. *)
Lemma patterns_but_fence_need_other :
  Forall (fun R => needs not_backtick (pattern R)) patterns_but_fence.
Proof.
  unfold patterns_but_fence.
  repeat (apply Forall_cons;
          [ cbv [pattern headers lists numberedLists inlineCode
                 emphasis links blockquotes tables horizontalRules
                 seqs plus at_least lit lit_units list_ascii_of_string
                 chr any_of none_of digit needs];
            solve_not_backtick | ]).
  apply Forall_nil.
Qed.

(** *** The substring detector *)

Lemma startsWith_spec search s :
  startsWith search s = true <-> exists post, s = search ++ post.
Proof.
  revert s. induction search as [|a search IH]; intros s; cbn.
  - split; eauto.
  - destruct s as [|b s]; [split; [discriminate | intros (post & E); discriminate]|].
    rewrite andb_true_iff, N.eqb_eq, IH. split.
    + intros (-> & post & ->). eauto.
    + intros (post & E). injection E as -> ->. eauto.
Qed.

(** [includes] finds exactly the texts in which the search string
    occurs. *)
Lemma str_includes_spec s search :
  str_includes s search = true <-> contains s search.
Proof.
  unfold contains. induction s as [|c s IH]; cbn [str_includes];
    rewrite orb_true_iff, startsWith_spec.
  - split.
    + intros [(post & E) | H]; [|discriminate]. exists [], post. exact E.
    + intros (pre & post & E). left.
      destruct pre; [eauto|discriminate].
  - rewrite IH. split.
    + intros [(post & E) | (pre & post & E)].
      * exists [], post. exact E.
      * exists (c :: pre), post. cbn. now rewrite E.
    + intros (pre & post & E). destruct pre as [|c' pre].
      * left. eauto.
      * right. cbn in E. injection E as -> E. eauto.
Qed.

Lemma contains_longer s a b : contains s (a ++ b) -> contains s b.
Proof.
  intros (pre & post & ->). exists (pre ++ a), post. now rewrite <- !app_assoc.
Qed.

End ClassifierExtraFacts.
Import ClassifierExtraFacts.

Module ClassifierExtras.

(** X1.  A text classified as Markdown stays so when whole lines are
    added before it, after it, or both: every match of the ten
    patterns is still a match once a line terminator separates the
    text from what is added. *)
Theorem markdown_verdict_survives_added_lines text nl before after :
  isLineTerminator nl = true ->
  isMarkdownContent text = true ->
  isMarkdownContent (text ++ nl :: after) = true /\
  isMarkdownContent (before ++ nl :: text) = true /\
  isMarkdownContent (before ++ nl :: text ++ nl :: after) = true.
Proof.
  intros Hnl H.
  pose proof patterns_line_anchored as Ha. rewrite Forall_forall in Ha.
  assert (Hafter : forall t u, isMarkdownContent t = true ->
                               isMarkdownContent (t ++ nl :: u) = true).
  { intros t u. apply isMarkdownContent_mono. intros entry Hin.
    apply test_line_after; auto. }
  assert (Hbefore : forall t u, isMarkdownContent t = true ->
                                isMarkdownContent (u ++ nl :: t) = true).
  { intros t u. apply isMarkdownContent_mono. intros entry Hin.
    apply test_line_before; auto. }
  repeat split; auto.
Qed.

Lemma markdown_verdict_survives_added_lines_witness :
  isMarkdownContent (js "intro" ++ [10%N] ++ js "# Title" ++ [10%N] ++ js "more") = true.
Proof.
  apply (@markdown_verdict_survives_added_lines (js "# Title") 10%N (js "intro") (js "more"));
    reflexivity.
Defined.

(** X2.  A fenced code block whose content holds a character other
    than the backtick makes a text Markdown by itself, whatever stands
    around it: the fence pattern and the inline-code pattern both
    match.  A text made of backticks only is never Markdown. *)
Theorem fenced_code_is_markdown :
  (forall pre body post,
      (exists c, In c body /\ c <> backtick) ->
      isMarkdownContent (pre ++ fence ++ body ++ fence ++ post) = true) /\
  (forall text,
      forallb (N.eqb backtick) text = true -> isMarkdownContent text = false).
Proof.
  split.
  - intros pre body post Hc.
    unfold isMarkdownContent. apply orb_true_iff. left. apply Nat.leb_le.
    apply two_signals_spec.
    exists "codeBlocks"%string, codeBlocks, "inlineCode"%string, inlineCode.
    split; [discriminate|]. split; [cbn; tauto|]. split; [cbn; tauto|].
    split; [apply codeBlocks_fenced|].
    destruct (enclosed_run body ([backtick; backtick] ++ post) Hc)
      as (l1 & x & run & l2 & E & Hr).
    replace (pre ++ fence ++ body ++ fence ++ post)
      with ((pre ++ [backtick; backtick] ++ l1) ++ backtick :: x :: run ++ backtick :: l2).
    + now apply inlineCode_enclosed.
    + rewrite <- !app_assoc. f_equal. cbn [app]. rewrite <- E. reflexivity.
  - intros text Ht.
    assert (Hn : forall R, In R patterns_but_fence -> test R text = false).
    { intros R HR. destruct (test R text) eqn:E; [|reflexivity].
      pose proof patterns_but_fence_need_other as HF. rewrite Forall_forall in HF.
      destruct (test_needs _ _ _ (HF R HR) E) as (c & Hin & Hc).
      rewrite forallb_forall in Ht. apply Ht, N.eqb_eq in Hin.
      unfold not_backtick in Hc. congruence. }
    unfold isMarkdownContent, hasImportantPatterns, matchedPatterns, markdownPatterns.
    cbn [filter snd].
    rewrite (Hn headers), (Hn lists), (Hn numberedLists), (Hn inlineCode),
      (Hn emphasis), (Hn links), (Hn blockquotes), (Hn tables), (Hn horizontalRules)
      by (cbn; auto 12).
    now destruct (test codeBlocks text).
Qed.

Lemma fenced_code_witness :
  isMarkdownContent (js "see " ++ fence ++ js "x = 1" ++ fence ++ js ".") = true /\
  isMarkdownContent (fence ++ fence) = false.
Proof.
  destruct fenced_code_is_markdown as [H1 H2]. split.
  - apply H1. exists 120%N. split; [cbn; tauto | discriminate].
  - apply H2. reflexivity.
Defined.

(** X3.  A text that holds none of the ten characters
    [# - * + . ` _ [ > |] matches no pattern and is not classified as
    Markdown. *)
Theorem text_without_markers_is_not_markdown text :
  existsb is_marker text = false ->
  matchedPatterns text = [] /\ isMarkdownContent text = false.
Proof.
  intros H. pose proof (no_marker_no_match text H) as Hm.
  split; [exact Hm | now apply no_match_not_markdown].
Qed.

Lemma text_without_markers_witness :
  isMarkdownContent (js "Minutes of the meeting, Monday 3 pm: budget (2nd draft)") = false.
Proof.
  apply (@text_without_markers_is_not_markdown
           (js "Minutes of the meeting, Monday 3 pm: budget (2nd draft)")).
  reflexivity.
Defined.

(** X4.  The substring detector accepts a text exactly when it holds
    [# ], an asterisk, [- ] or three backticks in a row: its tests for
    [## ] and for [**] never change the answer. *)
Theorem basicMarkdown_four_checks content :
  basicMarkdown content = true
  <-> contains content (js "# ") \/ In 42%N content
      \/ contains content (js "- ") \/ contains content (js "```").
Proof.
  unfold basicMarkdown. rewrite !orb_true_iff, !str_includes_spec.
  assert (Hstar : contains content (js "*") <-> In 42%N content).
  { split.
    - intros (pre & post & ->). rewrite in_app_iff. right. now left.
    - intros H. apply in_split in H. destruct H as (l1 & l2 & ->). now exists l1, l2. }
  assert (H2 : contains content (js "## ") -> contains content (js "# ")).
  { apply (@contains_longer content (js "#") (js "# ")). }
  assert (H3 : contains content (js "**") -> contains content (js "*")).
  { apply (@contains_longer content (js "*") (js "*")). }
  rewrite <- Hstar. tauto.
Qed.

End ClassifierExtras.
(** ** The transformer *)

Module TransformerFacts.

(** An element whose tag has no case in the [switch] of
    [processElement] is passed over: nothing is written for it. *)
Lemma processElement_other tag kids :
  ~ In tag recognizedTags -> processElement (Element tag kids) = skip.
Proof.
  intros H. unfold processElement. cbn [tagName].
  repeat match goal with
    | |- context [str_eqb tag ?b] =>
        replace (str_eqb tag b) with false
          by (symmetry; apply str_eqb_neq; intros ->; apply H; cbn; tauto)
    end.
  reflexivity.
Qed.

Section Entry.

Variable parseFromString : jsstring -> option DomDocument.
Variable typeError : jsstring -> jsstring.

(** Without a [body] the function throws before it writes anything. *)
Lemma no_body_throws htmlContent doc :
  parseFromString htmlContent = Some doc ->
  body doc = None ->
  htmlToGoogleDocsStructure parseFromString typeError htmlContent
  = Throw (typeError (js "nodeType")).
Proof.
  intros Hp Hb. unfold htmlToGoogleDocsStructure. now rewrite Hp, Hb.
Qed.

Lemma no_document_throws htmlContent :
  parseFromString htmlContent = None ->
  htmlToGoogleDocsStructure parseFromString typeError htmlContent
  = Throw (typeError (js "body")).
Proof.
  intros Hp. unfold htmlToGoogleDocsStructure. now rewrite Hp.
Qed.

(** With a parser whose documents have no [body], every call throws. *)
Lemma bodyless_throws htmlContent :
  (forall html doc, parseFromString html = Some doc -> body doc = None) ->
  exists property,
    htmlToGoogleDocsStructure parseFromString typeError htmlContent
    = Throw (typeError property).
Proof.
  intros H. destruct (parseFromString htmlContent) as [doc|] eqn:E.
  - exists (js "nodeType"). exact (no_body_throws E (H _ _ E)).
  - exists (js "body"). exact (no_document_throws E).
Qed.

(** It returns exactly when the document has a body, and then with
    the requests of the walk over it. *)
Lemma returns_iff_body htmlContent ops :
  htmlToGoogleDocsStructure parseFromString typeError htmlContent = Return ops
  <-> exists doc root,
        parseFromString htmlContent = Some doc /\ body doc = Some root /\
        ops = requests (walkDOM root initial).
Proof.
  unfold htmlToGoogleDocsStructure.
  destruct (parseFromString htmlContent) as [doc|].
  - destruct (body doc) as [root|] eqn:Eb.
    + split.
      * intros E. inversion E. exists doc, root. auto.
      * intros (doc' & root' & E1 & E2 & ->). inversion E1; subst.
        rewrite Eb in E2. now inversion E2.
    + split; [discriminate|]. intros (doc' & root' & E1 & E2 & _).
      inversion E1; subst. rewrite Eb in E2. discriminate.
  - split; [discriminate|]. intros (doc' & root' & E1 & _). discriminate.
Qed.

End Entry.

(** What the walk writes over the body that a parser of HTML documents
    builds for the fragments of the specification. *)
Lemma walk_heading_and_paragraph :
  requests (walkDOM fragment_h1_p initial)
  = [ insertText 1 [84; 105; 116; 108; 101; 10]%N;
      updateParagraphStyle 1 6
        [("namedStyleType", JStr "HEADING_1"); ("spaceAbove", pt 20);
         ("spaceBelow", pt 10)]%string "*";
      insertText 7 [66; 111; 100; 121; 10]%N;
      updateParagraphStyle 7 11
        [("namedStyleType", JStr "NORMAL_TEXT"); ("spaceAbove", pt 8);
         ("spaceBelow", pt 8)]%string "*" ].
Proof. vm_compute. reflexivity. Qed.

Lemma walk_list :
  inserted_texts (requests (walkDOM fragment_ul initial))
  = [ [8226; 32; 65; 10]%N; [8226; 32; 66; 10]%N ].
Proof. vm_compute. reflexivity. Qed.

Lemma walk_blockquote :
  inserted_texts (requests (walkDOM fragment_blockquote initial))
  = [ js "Quote" ++ [10%N]; js "Quote" ++ [10%N] ].
Proof. vm_compute. reflexivity. Qed.

Lemma walk_level3_heading :
  requests (walkDOM fragment_h3 initial) = [].
Proof. vm_compute. reflexivity. Qed.

End TransformerFacts.
Import TransformerFacts.

(** ** The flat transformer's [default] branch *)

Module FlatTransformerFacts.

Import FlatTransformer.

(** In the flat transformer a child of the body whose lower-cased tag
    has no case of its own is written as one [insertText] of its text
    content and a line break, with no style request. *)
Lemma default_inserts_text (toLowerCase : jsstring -> jsstring) tag kids st :
  ~ In (toLowerCase tag) [js "h1"; js "h2"; js "p"; js "ul"; js "code"] ->
  processChild toLowerCase (Element tag kids) st
  = mkState
      (requests st
       ++ [insertText (currentIndex st) (textContent (Element tag kids) ++ newline)])
      (currentIndex st + length_of (textContent (Element tag kids) ++ newline)).
Proof.
  intros H. unfold processChild. cbn [tagName].
  repeat match goal with
    | |- context [str_eqb (toLowerCase tag) ?b] =>
        replace (str_eqb (toLowerCase tag) b) with false
          by (symmetry; apply str_eqb_neq; intros E; apply H; rewrite E; cbn; tauto)
    end.
  reflexivity.
Qed.

(** Without a [body] the flat transformer throws before it looks at
    any child. *)
Lemma flat_no_body_throws (toLowerCase : jsstring -> jsstring)
  (parseFromString : jsstring -> option DomDocument) (typeError : jsstring -> jsstring)
  htmlContent doc :
  parseFromString htmlContent = Some doc ->
  body doc = None ->
  htmlToGoogleDocsStructure toLowerCase parseFromString typeError htmlContent
  = Throw (typeError (js "children")).
Proof.
  intros Hp Hb. unfold htmlToGoogleDocsStructure. now rewrite Hp, Hb.
Qed.

End FlatTransformerFacts.


(** ** The transformer that works tag by tag *)

Module LayoutFacts.

(** Induction over a parsed tree, with the property available for
    every child of an element. *)
Lemma node_induction (P : node -> Prop) :
  (forall tag kids, Forall P kids -> P (Element tag kids)) ->
  (forall d, P (Text d)) ->
  (forall d, P (Comment d)) ->
  forall n, P n.
Proof.
  intros He Ht Hc. fix IH 1. intros [tag kids | d | d].
  - apply He. induction kids as [|k ks IHks]; constructor; [apply IH | exact IHks].
  - apply Ht.
  - apply Hc.
Qed.

Lemma length_of_app s t : length_of (s ++ t) = (length_of s + length_of t)%N.
Proof. unfold length_of. rewrite length_app. lia. Qed.

Lemma length_of_line text : length_of (text ++ newline) = (length_of text + 1)%N.
Proof. now rewrite length_of_app. Qed.

Lemma total_length_app l1 l2 :
  total_length (l1 ++ l2) = (total_length l1 + total_length l2)%N.
Proof.
  induction l1 as [|t l1 IH]; cbn [app total_length fold_right]; [reflexivity|].
  fold (total_length (l1 ++ l2)). fold (total_length l1). rewrite IH. lia.
Qed.

Lemma inserted_texts_app ops1 ops2 :
  inserted_texts (ops1 ++ ops2) = inserted_texts ops1 ++ inserted_texts ops2.
Proof. unfold inserted_texts. apply flat_map_app. Qed.

Lemma total_length_cons t l :
  total_length (t :: l) = (length_of t + total_length l)%N.
Proof. reflexivity. Qed.

Lemma placed_app ops1 : forall c ops2,
  placed c (ops1 ++ ops2)
  <-> placed c ops1 /\ placed (c + total_length (inserted_texts ops1)) ops2.
Proof.
  induction ops1 as [|r ops1 IH]; intros c ops2.
  - cbn [app placed]. change (total_length (inserted_texts [])) with 0%N.
    rewrite N.add_0_r. tauto.
  - destruct r as [i t | a b o f | a b o f]; cbn [app placed].
    + change (inserted_texts (insertText i t :: ops1)) with (t :: inserted_texts ops1).
      rewrite total_length_cons, IH, N.add_assoc. tauto.
    + change (inserted_texts (updateTextStyle a b o f :: ops1))
        with (inserted_texts ops1). apply IH.
    + change (inserted_texts (updateParagraphStyle a b o f :: ops1))
        with (inserted_texts ops1). apply IH.
Qed.

Lemma writes_skip : writes skip [].
Proof.
  intros st. exists []. unfold skip. change (total_length []) with 0%N.
  rewrite app_nil_r, N.add_0_r. destruct st. cbn. auto.
Qed.

Lemma writes_then a b l1 l2 :
  writes a l1 -> writes b l2 -> writes (fun st => b (a st)) (l1 ++ l2).
Proof.
  intros Ha Hb st. destruct (Ha st) as (o1 & E1 & T1 & P1).
  destruct (Hb (a st)) as (o2 & E2 & T2 & P2).
  exists (o1 ++ o2). rewrite E2, E1. cbn [requests currentIndex].
  rewrite total_length_app, inserted_texts_app, T1, T2, <- app_assoc, N.add_assoc.
  repeat split. apply placed_app. split; [exact P1|].
  rewrite E1 in P2. cbn [currentIndex] in P2. now rewrite T1.
Qed.

Lemma writes_forEach {A} (f : A -> action) (g : A -> list jsstring) l :
  (forall x, writes (f x) (g x)) -> writes (forEach f l) (flat_map g l).
Proof.
  intros H. induction l as [|x l IH]; cbn [forEach flat_map].
  - apply writes_skip.
  - exact (writes_then (H x) IH).
Qed.

Lemma flat_map_single {A B} (g : A -> B) l : flat_map (fun x => [g x]) l = map g l.
Proof. induction l as [|x l IH]; cbn; [reflexivity | now rewrite IH]. Qed.

Lemma nonblank_truthy text : forallb isSpace text = false -> truthy text = true.
Proof. destruct text; [discriminate | reflexivity]. Qed.

Section TagOrder.

Import TagOrderTransformer.

Variable sameName : jsstring -> jsstring -> bool.

Lemma writes_addFormattedText text textStyle paragraphStyle :
  writes (addFormattedText text textStyle paragraphStyle)
         (if forallb isSpace text then [] else [text ++ newline]).
Proof.
  intros st. unfold addFormattedText. rewrite truthy_trim.
  destruct (forallb isSpace text) eqn:Hb.
  - rewrite orb_true_r. apply writes_skip.
  - rewrite (nonblank_truthy text Hb). cbn [negb orb].
    rewrite total_length_cons, length_of_line.
    change (total_length []) with 0%N. rewrite N.add_0_r.
    destruct textStyle as [|t1 ts]; destruct paragraphStyle as [|p1 ps];
      cbn; eexists; rewrite <- ?app_assoc; cbn [app];
      (split; [reflexivity | split; [reflexivity | cbn; auto]]).
Qed.

Lemma writes_elements (elements : list node) textStyle paragraphStyle :
  writes (forEach (fun e => addFormattedText (textContent e) textStyle paragraphStyle)
                  elements)
         (lines_of elements).
Proof.
  unfold lines_of.
  apply (writes_forEach
           (fun e => addFormattedText (textContent e) textStyle paragraphStyle)
           (fun e => if forallb isSpace (textContent e) then []
                     else [textContent e ++ newline])).
  intros e. apply writes_addFormattedText.
Qed.

Lemma itemPrefix_nonblank text : forallb isSpace (itemPrefix ++ text) = false.
Proof. reflexivity. Qed.

Lemma writes_items (items : list node) :
  writes (forEach (fun item =>
                     addFormattedText (itemPrefix ++ textContent item) []
                                      listItemParagraph) items)
         (map (fun item => itemPrefix ++ textContent item ++ newline) items).
Proof.
  rewrite <- flat_map_single. apply writes_forEach. intros item.
  pose proof (writes_addFormattedText (itemPrefix ++ textContent item) []
                listItemParagraph) as H.
  rewrite itemPrefix_nonblank, <- app_assoc in H. exact H.
Qed.

End TagOrder.

End LayoutFacts.
Import LayoutFacts.

Module TagOrderFacts.

Import TagOrderTransformer.

(** What the five passes write over a document. *)
Lemma tag_order_lines (sameName : jsstring -> jsstring -> bool) (doc : list node) :
  let elements := TagOrderTransformer.getElementsByTagName sameName doc in
  let ops :=
    requests
      (processCodeBlocks sameName doc
         (processLists sameName doc
            (processParagraphs sameName doc
               (processSubHeadings sameName doc
                  (processHeadings sameName doc initial))))) in
  inserted_texts ops
  = lines_of (elements (js "h1"))
    ++ lines_of (elements (js "h2"))
    ++ lines_of (elements (js "p"))
    ++ flat_map
         (fun list =>
            map (fun item => TagOrderTransformer.itemPrefix ++ textContent item ++ newline)
                (TagOrderTransformer.getElementsByTagName sameName (childNodes list)
                   (js "li")))
         (elements (js "ul"))
    ++ lines_of (elements (js "pre"))
  /\ placed 1 ops.
Proof.
  intros elements ops.
  pose proof (LayoutFacts.writes_elements (elements (js "h1"))
                (TagOrderTransformer.headingText 16) (TagOrderTransformer.named "HEADING_1"))
    as H1.
  pose proof (LayoutFacts.writes_elements (elements (js "h2"))
                (TagOrderTransformer.headingText 14) (TagOrderTransformer.named "HEADING_2"))
    as H2.
  pose proof (LayoutFacts.writes_elements (elements (js "p"))
                [] (TagOrderTransformer.named "NORMAL_TEXT")) as H3.
  pose proof (LayoutFacts.writes_forEach
                (fun list =>
                   forEach (fun item =>
                              TagOrderTransformer.addFormattedText
                                (TagOrderTransformer.itemPrefix ++ textContent item) []
                                TagOrderTransformer.listItemParagraph)
                     (TagOrderTransformer.getElementsByTagName sameName (childNodes list)
                        (js "li")))
                (fun list =>
                   map (fun item =>
                          TagOrderTransformer.itemPrefix ++ textContent item ++ newline)
                       (TagOrderTransformer.getElementsByTagName sameName
                          (childNodes list) (js "li")))
                (elements (js "ul"))
                (fun list => LayoutFacts.writes_items _)) as H4.
  pose proof (LayoutFacts.writes_elements (elements (js "pre"))
                TagOrderTransformer.preText TagOrderTransformer.preParagraph) as H5.
  pose proof (LayoutFacts.writes_then H1
                (LayoutFacts.writes_then H2
                   (LayoutFacts.writes_then H3 (LayoutFacts.writes_then H4 H5)))) as H.
  destruct (H initial) as (out & E & T & P).
  assert (Eo : ops = out).
  { subst ops. unfold
      TagOrderTransformer.processHeadings, TagOrderTransformer.processSubHeadings,
      TagOrderTransformer.processParagraphs, TagOrderTransformer.processLists,
      TagOrderTransformer.processCodeBlocks.
    fold elements. cbv beta in E. rewrite E. reflexivity. }
  rewrite Eo. split; [exact T | exact P].
Qed.


Lemma descendants_are_elements n u : In u (descendants n) -> isElement u = true.
Proof.
  revert u. induction n as [tag kids IH | d | d] using node_induction;
    intros u H; try contradiction.
  cbn [descendants] in H. apply in_flat_map in H. destruct H as (k & Hk & Hu).
  destruct (isElement k) eqn:E; [|contradiction].
  destruct Hu as [<- | Hu]; [exact E|].
  rewrite Forall_forall in IH. exact (IH k Hk u Hu).
Qed.

(** In document order an element is followed at once by its own
    descendants. *)
Lemma descendants_preorder n : forall u,
  In u (descendants n) ->
  exists a c, descendants n = a ++ u :: descendants u ++ c.
Proof.
  induction n as [tag kids IH | d | d] using node_induction;
    intros u H; try contradiction.
  cbn [descendants] in H |- *. apply in_flat_map in H. destruct H as (k & Hk & Hu).
  apply in_split in Hk. destruct Hk as (k1 & k2 & ->).
  rewrite flat_map_app. cbn [flat_map].
  destruct (isElement k) eqn:E; [|contradiction].
  destruct Hu as [<- | Hu].
  - eexists (flat_map _ k1), (flat_map _ k2). cbn [app]. reflexivity.
  - rewrite Forall_forall in IH.
    assert (Hk : In k (k1 ++ k :: k2)) by (apply in_or_app; right; now left).
    destruct (IH k Hk u Hu) as (a & c & Ed).
    rewrite Ed. exists (flat_map (fun k0 => if isElement k0 then k0 :: descendants k0 else []) k1
                        ++ k :: a), (c ++ flat_map (fun k0 => if isElement k0 then k0 :: descendants k0 else []) k2).
    repeat (rewrite <- app_assoc || rewrite <- app_comm_cons). reflexivity.
Qed.

Lemma descendants_childNodes u :
  descendantsOf (childNodes u) = descendants u.
Proof. destruct u; reflexivity. Qed.

Lemma descendantsOf_preorder kids u :
  In u (descendantsOf kids) ->
  exists a c, descendantsOf kids = a ++ u :: descendants u ++ c.
Proof. apply (descendants_preorder (Element [] kids)). Qed.

Lemma twice_in_app {A} (x : A) l1 l2 p1 p2 p3 p4 m s1 s2 :
  In x l1 -> In x l2 ->
  exists a b c,
    p1 ++ p2 ++ p3 ++ p4 ++ l1 ++ m ++ l2 ++ s1 ++ s2 = a ++ x :: b ++ x :: c.
Proof.
  intros H1 H2. apply in_split in H1. destruct H1 as (a1 & b1 & ->).
  apply in_split in H2. destruct H2 as (a2 & b2 & ->).
  exists (p1 ++ p2 ++ p3 ++ p4 ++ a1), (b1 ++ m ++ a2), (b2 ++ s1 ++ s2).
  repeat (rewrite <- app_assoc || rewrite <- app_comm_cons). reflexivity.
Qed.

End TagOrderFacts.

(** ** Content extraction with tables *)

Module RichExtractionFacts.

Import RichExtraction.

Section Collect.

Variable A : Type.
Variable f : A -> option (list jsstring).

Lemma collect_app l1 l2 :
  collect f (l1 ++ l2)
  = match collect f l1, collect f l2 with
    | Some p, Some q => Some (p ++ q)
    | _, _ => None
    end.
Proof.
  induction l1 as [|x l1 IH]; cbn [app collect].
  - now destruct (collect f l2).
  - destruct (f x) as [p|]; [|reflexivity].
    fold (collect f). rewrite IH.
    destruct (collect f l1) as [q|]; [|reflexivity].
    destruct (collect f l2) as [r|]; [|reflexivity].
    now rewrite app_assoc.
Qed.

Lemma collect_raises l x :
  In x l -> f x = None -> collect f l = None.
Proof.
  intros Hin Hx. apply in_split in Hin as (l1 & l2 & ->).
  rewrite collect_app. cbn [collect]. rewrite Hx.
  now destruct (collect f l1).
Qed.

Lemma collect_ext (g : A -> option (list jsstring)) l :
  (forall x, In x l -> f x = g x) -> collect f l = collect g l.
Proof.
  induction l as [|x l IH]; intros H; [reflexivity|].
  cbn [collect]. fold (collect f) (collect g).
  rewrite (H x) by now left. rewrite IH by (intros; apply H; now right).
  reflexivity.
Qed.

Lemma collect_total (g : A -> list jsstring) l :
  (forall x, In x l -> f x = Some (g x)) -> collect f l = Some (flat_map g l).
Proof.
  induction l as [|x l IH]; intros H; [reflexivity|].
  cbn [collect flat_map]. fold (collect f).
  rewrite (H x) by now left. rewrite IH by (intros; apply H; now right).
  reflexivity.
Qed.

(** Collecting over the concatenation of lists is collecting list by
    list. *)
Lemma collect_flat_map (B : Type) (h : B -> list A) l :
  collect f (flat_map h l) = collect (fun y => collect f (h y)) l.
Proof.
  induction l as [|y l IH]; [reflexivity|].
  cbn [flat_map collect]. fold (collect (fun y => collect f (h y))).
  rewrite collect_app, IH.
  destruct (collect f (h y)); [|reflexivity].
  now destruct (collect (fun y0 => collect f (h y0)) l).
Qed.

End Collect.

Lemma processElement_no_table e :
  no_table e ->
  processElement e
  = Some (match paragraph_elements (paragraphs_only e) with
          | Some elements => runs elements
          | None => []
          end).
Proof.
  destruct e as [[elements|] [t|] toc]; cbn; intros H; try reflexivity.
  contradiction.
Qed.

Lemma processElement_cell cell :
  match cell with
  | mkTableCell None => Some []
  | mkTableCell (Some cellContent) => collect processElement cellContent
  end = collect processElement (cell_content cell).
Proof. now destruct cell as [[c|]]. Qed.

Lemma processElement_row row :
  complete_row row ->
  match row with
  | mkTableRow None => None
  | mkTableRow (Some cells) =>
      collect
        (fun cell =>
           match cell with
           | mkTableCell None => Some []
           | mkTableCell (Some cellContent) => collect processElement cellContent
           end)
        cells
  end = collect processElement (row_content row).
Proof.
  destruct row as [[cells|]]; cbn; [intros _ | contradiction].
  rewrite collect_flat_map. apply collect_ext.
  intros cell _. apply processElement_cell.
Qed.

Lemma processElement_table rows toc :
  Forall complete_row rows ->
  processElement (mkBodyElement None (Some (mkTable (Some rows))) toc)
  = collect processElement (flat_map row_content rows).
Proof.
  intros H. cbn [processElement]. rewrite collect_flat_map.
  apply collect_ext. intros row Hin.
  rewrite Forall_forall in H.
  exact (@processElement_row row (H row Hin)).
Qed.

Lemma processElement_broken e :
  broken_table e -> processElement e = None.
Proof.
  destruct e as [[elements|] [[[rows|]]|] toc]; cbn [broken_table];
    try contradiction; [|reflexivity].
  intros (row & Hin & Hrow). cbn [processElement].
  apply (@collect_raises _ _ _ _ Hin).
  destruct row as [[cells|]]; [|reflexivity]. cbn in Hrow. tauto.
Qed.

End RichExtractionFacts.

Module ExtractionExtras.

Import RichExtraction RichExtractionFacts.

(** X13.  On a document none of whose top-level elements is read as a
    table, the extraction of [index.js], which descends into tables,
    returns what the extraction that reads paragraphs only returns: the
    non-empty text runs of the paragraphs joined by line feeds, and the
    empty string when the body is missing.  Tables of contents and
    unknown elements contribute nothing in both. *)
Theorem extraction_agrees_without_tables (d : RichDocument) :
  match rich_body d with
  | Some bodyContent => Forall no_table bodyContent
  | None => True
  end ->
  RichExtraction.extractDocumentContent d
  = Batch.extractDocumentContent (as_document d).
Proof.
  destruct d as [[bodyContent|]]; cbn; [|reflexivity].
  intros H. unfold RichExtraction.extractDocumentContent, Batch.extractDocumentContent.
  cbn [rich_body body_content].
  rewrite (@collect_total _ processElement
             (fun e => match paragraph_elements (paragraphs_only e) with
                       | Some elements => runs elements
                       | None => []
                       end)).
  - f_equal. clear H. induction bodyContent as [|e l IH]; [reflexivity|].
    cbn [map flat_map]. now rewrite IH.
  - intros e Hin. apply processElement_no_table.
    rewrite Forall_forall in H. now apply H.
Qed.

Lemma extraction_agrees_witness :
  RichExtraction.extractDocumentContent
    (mkRichDocument
       (Some [ mkBodyElement (Some [mkParagraphElement (Some (js "# Title"))]) None false;
               mkBodyElement None None true;
               mkBodyElement (Some [mkParagraphElement (Some (js "text"))]) None false ]))
  = js "# Title" ++ newline ++ js "text".
Proof.
  rewrite extraction_agrees_without_tables.
  - reflexivity.
  - cbn. repeat constructor.
Defined.

(** X14.  A table whose rows all carry their cells is read as the
    content of its cells in row order, as if that content stood in the
    place of the table: the text of the cells is joined to the rest by
    single line feeds, with no mark of rows or columns, and this at any
    depth, since the content of a cell is read by the same function. *)
Theorem table_is_read_as_its_cells before rows toc after :
  Forall complete_row rows ->
  RichExtraction.extractDocumentContent
    (mkRichDocument
       (Some (before ++ mkBodyElement None (Some (mkTable (Some rows))) toc :: after)))
  = RichExtraction.extractDocumentContent
      (mkRichDocument (Some (before ++ flat_map row_content rows ++ after))).
Proof.
  intros H. unfold RichExtraction.extractDocumentContent. cbn [rich_body].
  rewrite !collect_app. cbn [collect]. fold (collect processElement).
  rewrite (@processElement_table rows toc H).
  destruct (collect processElement before); [|reflexivity].
  destruct (collect processElement (flat_map row_content rows)); [|reflexivity].
  reflexivity.
Qed.

Lemma table_is_read_as_its_cells_witness :
  RichExtraction.extractDocumentContent
    (mkRichDocument
       (Some ([mkBodyElement (Some [mkParagraphElement (Some (js "a"))]) None false]
              ++ mkBodyElement None
                   (Some (mkTable (Some
                      [ mkTableRow (Some
                          [ mkTableCell (Some
                              [mkBodyElement (Some [mkParagraphElement (Some (js "b"))])
                                 None false]);
                            mkTableCell None ]);
                        mkTableRow (Some
                          [ mkTableCell (Some
                              [mkBodyElement (Some [mkParagraphElement (Some (js "c"))])
                                 None false]) ]) ])))
                   false
              :: [])))
  = js "a" ++ newline ++ js "b" ++ newline ++ js "c".
Proof.
  rewrite table_is_read_as_its_cells.
  - reflexivity.
  - repeat constructor.
Defined.

(** X15.  A table without its rows, or with a row without its cells,
    anywhere among the top-level elements makes the whole extraction
    return the empty string: the text of the paragraphs before and
    after it is lost with it. *)
Theorem broken_table_empties_the_extraction bodyContent e :
  In e bodyContent ->
  broken_table e ->
  RichExtraction.extractDocumentContent (mkRichDocument (Some bodyContent)) = [].
Proof.
  intros Hin Hb. unfold RichExtraction.extractDocumentContent. cbn [rich_body].
  now rewrite (@collect_raises _ _ _ _ Hin (@processElement_broken _ Hb)).
Qed.

Lemma broken_table_witness :
  RichExtraction.extractDocumentContent
    (mkRichDocument
       (Some [ mkBodyElement (Some [mkParagraphElement (Some (js "# Title"))]) None false;
               mkBodyElement None (Some (mkTable (Some [mkTableRow None]))) false ]))
  = [].
Proof.
  apply (@broken_table_empties_the_extraction _
           (mkBodyElement None (Some (mkTable (Some [mkTableRow None]))) false)).
  - cbn. auto.
  - cbn. exists (mkTableRow None). cbn. auto.
Defined.

End ExtractionExtras.

(** ** The conversion loops *)

Module BatchFacts.

Import ServerSpec.

(** A loop whose iterations never throw and append the entries of
    their outcome. *)
Section Loops.

Variable World : Type.
Variable step : File -> Task World unit.
Variable outcomeOf : File -> handlerState World -> Outcome.

Hypothesis step_spec : forall file st,
  fst (step file st) = Return tt /\
  convertedFiles (snd (step file st))
  = convertedFiles st ++ entries file (outcomeOf file st).

Lemma step_returns file st : step file st = (Return tt, snd (step file st)).
Proof.
  destruct (step_spec file st) as [H _].
  destruct (step file st) as [c st']. cbn in *. now subst.
Qed.

Lemma forEachFile_cons file rest st :
  forEachFile step (file :: rest) st = forEachFile step rest (snd (step file st)).
Proof.
  cbn [forEachFile]. unfold bind at 1. now rewrite step_returns.
Qed.

Lemma forEachFile_spec files : forall st,
  fst (forEachFile step files st) = Return tt /\
  convertedFiles (snd (forEachFile step files st))
  = convertedFiles st ++ new_entries files (outcomesFrom step outcomeOf files st).
Proof.
  induction files as [|file rest IH]; intros st.
  - cbn. now rewrite app_nil_r.
  - rewrite forEachFile_cons. cbn [outcomesFrom new_entries].
    destruct (IH (snd (step file st))) as [H1 H2].
    split; [exact H1|]. rewrite H2.
    destruct (step_spec file st) as [_ ->]. now rewrite <- app_assoc.
Qed.

Lemma outcomesFrom_length files : forall st,
  length (outcomesFrom step outcomeOf files st) = length files.
Proof.
  induction files as [|file rest IH]; intros st; cbn; [reflexivity | now rewrite IH].
Qed.

Lemma forEachFile_app l1 l2 : forall st,
  forEachFile step (l1 ++ l2) st = forEachFile step l2 (snd (forEachFile step l1 st)).
Proof.
  induction l1 as [|file l1 IH]; intros st.
  - reflexivity.
  - cbn [app]. now rewrite !forEachFile_cons, IH.
Qed.

Lemma outcomesFrom_app l1 l2 : forall st,
  outcomesFrom step outcomeOf (l1 ++ l2) st
  = outcomesFrom step outcomeOf l1 st
    ++ outcomesFrom step outcomeOf l2 (snd (forEachFile step l1 st)).
Proof.
  induction l1 as [|file l1 IH]; intros st.
  - reflexivity.
  - cbn [app outcomesFrom]. now rewrite IH, forEachFile_cons.
Qed.

End Loops.

Lemma new_entries_app l1 o1 l2 o2 :
  length l1 = length o1 ->
  new_entries (l1 ++ l2) (o1 ++ o2) = new_entries l1 o1 ++ new_entries l2 o2.
Proof.
  revert o1. induction l1 as [|f l1 IH]; intros [|o o1] H; try discriminate.
  - reflexivity.
  - cbn [app new_entries]. rewrite IH by (cbn in H; lia). now rewrite app_assoc.
Qed.

Lemma new_entries_length files : forall os,
  length files = length os ->
  length (new_entries files os) = length (filter recorded os).
Proof.
  induction files as [|f files IH]; intros [|o os] H; try discriminate; [reflexivity|].
  cbn [new_entries filter]. rewrite length_app, IH by (cbn in H; lia).
  destruct o; reflexivity.
Qed.

Lemma new_entries_converted files : forall os,
  Forall not_failed os -> Forall is_converted (new_entries files os).
Proof.
  induction files as [|f files IH]; intros [|o os] H; cbn [new_entries];
    try constructor.
  inversion H; subst. apply Forall_app. split; [|now apply IH].
  destruct o; cbn in *; try contradiction; repeat constructor.
Qed.

(** The two laws of such a loop: the result list is made of the
    entries of the outcomes, in file order; and around a single
    failure stand the [converted] entries of the files before and
    after it. *)
Section Laws.

Variable World : Type.
Variable step : File -> Task World unit.
Variable outcomeOf : File -> handlerState World -> Outcome.

Hypothesis step_spec : forall file st,
  fst (step file st) = Return tt /\
  convertedFiles (snd (step file st))
  = convertedFiles st ++ entries file (outcomeOf file st).

Lemma loop_results files st :
  fst (forEachFile step files st) = Return tt /\
  length (outcomesFrom step outcomeOf files st) = length files /\
  convertedFiles (snd (forEachFile step files st))
  = convertedFiles st ++ new_entries files (outcomesFrom step outcomeOf files st) /\
  length (convertedFiles (snd (forEachFile step files st)))
  = length (convertedFiles st)
    + length (filter recorded (outcomesFrom step outcomeOf files st)).
Proof.
  destruct (forEachFile_spec step outcomeOf step_spec files st) as [H1 H2].
  pose proof (outcomesFrom_length step outcomeOf files st) as Hl.
  repeat split; auto.
  rewrite H2, length_app, new_entries_length; auto.
Qed.

Lemma loop_single_failure before file after st message :
  let st1 := snd (forEachFile step before st) in
  let st2 := snd (step file st1) in
  let entries_before := new_entries before (outcomesFrom step outcomeOf before st) in
  let entries_after := new_entries after (outcomesFrom step outcomeOf after st2) in
  Forall not_failed (outcomesFrom step outcomeOf before st) ->
  outcomeOf file st1 = FailedWith message ->
  Forall not_failed (outcomesFrom step outcomeOf after st2) ->
  convertedFiles (snd (forEachFile step (before ++ file :: after) st))
  = convertedFiles st ++ entries_before ++ failed (name file) message :: entries_after
  /\ Forall is_converted entries_before
  /\ Forall is_converted entries_after
  /\ length entries_before
     = length (filter recorded (outcomesFrom step outcomeOf before st))
  /\ length entries_before <= length before.
Proof.
  intros st1 st2 eb ea Hb Hk Ha.
  destruct (forEachFile_spec step outcomeOf step_spec (before ++ file :: after) st)
    as [_ ->].
  rewrite outcomesFrom_app by exact step_spec. cbn [outcomesFrom].
  rewrite new_entries_app by (now rewrite outcomesFrom_length).
  cbn [new_entries]. fold st1. rewrite Hk. fold st2. cbn [entries app].
  assert (Hlen : length eb
                 = length (filter recorded (outcomesFrom step outcomeOf before st))).
  { subst eb. apply new_entries_length. now rewrite outcomesFrom_length. }
  repeat split; try (now apply new_entries_converted); [exact Hlen|].
  rewrite Hlen, <- (outcomesFrom_length step outcomeOf before st).
  apply filter_length_le.
Qed.

End Laws.

(** *** The loop of [part_003] *)

Section Classifying.

Variable World : Type.
Variable services : Services World.
Variable folder : jsstring.

(** An iteration never throws, and appends the entries of its
    outcome: none, one [converted], or one [failed]. *)
Lemma iteration_spec file st :
  fst (iteration services folder file st) = Return tt /\
  convertedFiles (snd (iteration services folder file st))
  = convertedFiles st ++ entries file (outcome services folder file st).
Proof.
  unfold outcome, iteration, tryCatch, convertFile, bind, await, ret, evaluate,
    zip_addFile, convertedFiles_push.
  destruct (documents_get services (id file) (world st)) as [[doc | m] w1];
    cbn; [|auto].
  destruct (isMarkdownContent (extractDocumentContent doc)); cbn;
    [|now rewrite app_nil_r].
  destruct (htmlToGoogleDocsStructure _ _ _) as [ops | m]; cbn; [|auto].
  destruct (documents_create services _ w1) as [[docId | m] w2]; cbn; [|auto].
  destruct (documents_batchUpdate services docId _ w2) as [[[] | m] w3]; cbn; [|auto].
  destruct (files_update services docId folder w3) as [[[] | m] w4]; cbn; [|auto].
  destruct (files_export services docId w4) as [[pdf | m] w5]; cbn; auto.
Qed.

Lemma convertAll_forEachFile files :
  convertAll services folder files = forEachFile (iteration services folder) files.
Proof.
  induction files as [|file rest IH]; cbn; [reflexivity | now rewrite IH].
Qed.

Lemma outcomes_outcomesFrom files : forall st,
  outcomes services folder files st
  = outcomesFrom (iteration services folder) (outcome services folder) files st.
Proof.
  induction files as [|file rest IH]; intros st; cbn; [reflexivity | now rewrite IH].
Qed.

(** A document classified as Markdown on which the transformer throws
    fails with the message of the transformer, and the services see
    nothing but the fetch. *)
Lemma transformer_failure file st docContent w1 message :
  documents_get services (id file) (world st) = (Return docContent, w1) ->
  isMarkdownContent (extractDocumentContent docContent) = true ->
  htmlToGoogleDocsStructure (parseFromString services) (typeError services)
    (marked_parse services (extractDocumentContent docContent))
  = Throw message ->
  outcome services folder file st = FailedWith message /\
  iteration services folder file st
  = (Return tt, mkHandlerState (convertedFiles st ++ [failed (name file) message]) w1).
Proof.
  intros Hget Hmd Ht.
  unfold outcome, iteration, tryCatch, convertFile, bind, await, evaluate,
    convertedFiles_push.
  rewrite Hget. cbv beta iota zeta. rewrite Hmd. cbv beta iota zeta.
  rewrite Ht. cbn. auto.
Qed.

End Classifying.

(** *** The loop of [index.js] *)

Section ByName.

Variable World : Type.
Variable services : Services World.
Variable toLowerCase : jsstring -> jsstring.
Variable sameName : jsstring -> jsstring -> bool.
Variable parseDocument : jsstring -> option (list node).
Variable typeErrorMessage : jsstring.
Variable folder : jsstring.

Local Abbreviation iteration :=
  (ByName.iteration services toLowerCase sameName parseDocument typeErrorMessage folder).
Local Abbreviation convertAll :=
  (ByName.convertAll services toLowerCase sameName parseDocument typeErrorMessage folder).
Local Abbreviation outcome :=
  (ByNameSpec.outcome services toLowerCase sameName parseDocument typeErrorMessage folder).

Lemma byName_skipped file st :
  ByName.skipped toLowerCase file = true ->
  iteration file st = (Return tt, st).
Proof.
  intros H. unfold ByName.iteration, tryCatch, ByName.convertFile.
  rewrite H. reflexivity.
Qed.

Lemma byName_spec file st :
  fst (iteration file st) = Return tt /\
  convertedFiles (snd (iteration file st))
  = convertedFiles st ++ entries file (outcome file st).
Proof.
  unfold ByNameSpec.outcome.
  destruct (ByName.skipped toLowerCase file) eqn:Hs.
  - rewrite (@byName_skipped file st Hs). cbn. now rewrite app_nil_r.
  - unfold ByName.iteration, tryCatch, ByName.convertFile. rewrite Hs.
    unfold bind, await, ret, evaluate, zip_addFile, convertedFiles_push.
    destruct (documents_get services (id file) (world st)) as [[doc | m] w1];
      cbn; [|auto].
    destruct (ByName.rawContent typeErrorMessage doc) as [content | m]; cbn; [|auto].
    destruct (TagOrderTransformer.htmlToGoogleDocsStructure _ _ _ _) as [ops | m];
      cbn; [|auto].
    destruct (documents_create services _ w1) as [[docId | m] w2]; cbn; [|auto].
    destruct (documents_batchUpdate services docId _ w2) as [[[] | m] w3]; cbn; [|auto].
    destruct (files_update services docId folder w3) as [[[] | m] w4]; cbn; [|auto].
    destruct (files_export services docId w4) as [[pdf | m] w5]; cbn; auto.
Qed.

(** A document that is not left out gets one entry, whatever its
    text is. *)
Lemma byName_kept file st :
  ByName.skipped toLowerCase file = false ->
  exists e,
    convertedFiles (snd (iteration file st)) = convertedFiles st ++ [e] /\
    originalFileName e = name file.
Proof.
  intros H. destruct (byName_spec file st) as [_ ->].
  unfold ByNameSpec.outcome. rewrite H.
  destruct (fst (ByName.convertFile _ _ _ _ _ _ _ _)); cbn; eauto.
Qed.

Lemma byName_forEachFile files : convertAll files = forEachFile iteration files.
Proof.
  induction files as [|file rest IH]; cbn; [reflexivity | now rewrite IH].
Qed.

Lemma byName_cons file rest st :
  convertAll (file :: rest) st = convertAll rest (snd (iteration file st)).
Proof.
  rewrite !byName_forEachFile. apply (forEachFile_cons _ outcome byName_spec).
Qed.

Lemma byName_names files : forall st,
  fst (convertAll files st) = Return tt /\
  map originalFileName (convertedFiles (snd (convertAll files st)))
  = map originalFileName (convertedFiles st)
    ++ map name (filter (fun file => negb (ByName.skipped toLowerCase file)) files).
Proof.
  induction files as [|file rest IH]; intros st.
  - cbn. now rewrite app_nil_r.
  - rewrite byName_cons. destruct (IH (snd (iteration file st))) as [H1 H2].
    split; [exact H1|]. rewrite H2. cbn [filter].
    destruct (ByName.skipped toLowerCase file) eqn:E; cbn [negb].
    + now rewrite (@byName_skipped file st E).
    + destruct (@byName_kept file st E) as (e & -> & En).
      rewrite map_app. cbn [map]. rewrite En, <- app_assoc. reflexivity.
Qed.

Lemma byName_all_skipped files : forall st,
  Forall (fun file => ByName.skipped toLowerCase file = true) files ->
  convertAll files st = (Return tt, st).
Proof.
  induction files as [|file rest IH]; intros st H; [reflexivity|].
  inversion H; subst. rewrite byName_cons, byName_skipped by assumption.
  now apply IH.
Qed.

(** A document that is not left out and whose batch update is refused
    after the fetch, the reading, the transformer and the creation
    fails with the message of the refusal. *)
Lemma byName_submit_failure file st docContent w1 content ops documentId w2 message w3 :
  ByName.skipped toLowerCase file = false ->
  documents_get services (id file) (world st) = (Return docContent, w1) ->
  ByName.rawContent typeErrorMessage docContent = Return content ->
  TagOrderTransformer.htmlToGoogleDocsStructure sameName parseDocument
    (typeError services) (marked_parse services content) = Return ops ->
  documents_create services (js "Converted-" ++ name file) w1 = (Return documentId, w2) ->
  documents_batchUpdate services documentId ops w2 = (Throw message, w3) ->
  outcome file st = FailedWith message.
Proof.
  intros Hs Hget Hraw Ht Hcreate Hupdate.
  unfold ByNameSpec.outcome, ByName.convertFile, bind, await, evaluate.
  rewrite Hs, Hget. cbv beta iota zeta. rewrite Hraw. cbv beta iota zeta.
  rewrite Ht. cbv beta iota zeta. cbn [world]. rewrite Hcreate. cbv beta iota zeta.
  cbn [world]. rewrite Hupdate. reflexivity.
Qed.

(** A document that is not left out and on which the transformer
    throws is recorded as failed with the message of the transformer,
    and the services see nothing but the fetch. *)
Lemma byName_transformer_failure file st docContent w1 content message :
  ByName.skipped toLowerCase file = false ->
  documents_get services (id file) (world st) = (Return docContent, w1) ->
  ByName.rawContent typeErrorMessage docContent = Return content ->
  TagOrderTransformer.htmlToGoogleDocsStructure sameName parseDocument
    (typeError services) (marked_parse services content) = Throw message ->
  iteration file st
  = (Return tt, mkHandlerState (convertedFiles st ++ [failed (name file) message]) w1).
Proof.
  intros Hs Hget Hraw Ht.
  unfold ByName.iteration, tryCatch, ByName.convertFile, bind, await, evaluate,
    convertedFiles_push.
  rewrite Hs, Hget. cbv beta iota zeta. rewrite Hraw. cbv beta iota zeta.
  rewrite Ht. reflexivity.
Qed.

End ByName.

End BatchFacts.
Import BatchFacts.

(** ** The routes *)

Module ServerFacts.

Import Server ServerSpec.

(** With a parser whose documents have no [body] the loop of
    [part_003] converts nothing: it fetches each document and records
    a failure for each one that is classified as Markdown. *)
Section NeverConverts.

Variable World : Type.
Variable services : Services World.
Variable folder : jsstring.

Hypothesis no_body : forall html doc,
  parseFromString services html = Some doc -> body doc = None.




End NeverConverts.

(** Fields of a header. *)
Lemma split_nonempty sep s : split sep s <> [].
Proof.
  destruct s as [|c s]; cbn; [discriminate|].
  destruct (c =? sep)%N; [discriminate|].
  destruct (split sep s); discriminate.
Qed.

Lemma split_no_separator (sep : N) (s : list N) : ~ In sep s -> split sep s = [s].
Proof.
  induction s as [|c s IH]; intros H; [reflexivity|].
  cbn [split]. destruct (c =? sep)%N eqn:E.
  - apply N.eqb_eq in E. subst. exfalso. apply H. now left.
  - rewrite IH; [reflexivity|]. intros Hin. apply H. now right.
Qed.

Lemma split_first (sep : N) (a b : list N) :
  ~ In sep a -> split sep (a ++ sep :: b) = a :: split sep b.
Proof.
  induction a as [|c a IH]; intros H; cbn [app split].
  - now rewrite N.eqb_refl.
  - destruct (c =? sep)%N eqn:E.
    + apply N.eqb_eq in E. subst. exfalso. apply H. now left.
    + rewrite IH; [reflexivity|]. intros Hin. apply H. now right.
Qed.

Lemma firstn_prefix (A : Type) n (l : list A) : exists rest, l = firstn n l ++ rest.
Proof. exists (skipn n l). now rewrite firstn_skipn. Qed.

Lemma subsequence_refl (A : Type) (l : list A) : subsequence l l.
Proof. induction l; constructor; auto. Qed.

Lemma subsequence_snoc (A : Type) (l m : list A) x :
  subsequence l m -> subsequence (l ++ [x]) (m ++ [x]).
Proof.
  induction 1; cbn.
  - repeat constructor.
  - now constructor.
  - now constructor.
Qed.

Lemma subsequence_skip (A : Type) (l m : list A) x :
  subsequence l m -> subsequence l (m ++ [x]).
Proof.
  induction 1; cbn.
  - repeat constructor.
  - now constructor.
  - now constructor.
Qed.

End ServerFacts.

(** ** The transformers on the documents of the parser *)

Module TransformerTheorems.

(** C2 (defect).  The claim expects four requests for the fragment
    [<h1>Title</h1><p>Body</p>].  The function passes [doc.body] to
    the walk; when the document that the parser returns for the
    fragment has no [body], as the documents of the parser that the
    file loads, the walk reads [nodeType] of [undefined] and the
    function throws a [TypeError] instead of returning requests. *)
Theorem heading_and_paragraph_throws
  (parseFromString : jsstring -> option DomDocument) (typeError : jsstring -> jsstring) doc :
  parseFromString (js "<h1>Title</h1><p>Body</p>") = Some doc ->
  body doc = None ->
  htmlToGoogleDocsStructure parseFromString typeError (js "<h1>Title</h1><p>Body</p>")
  = Throw (typeError (js "nodeType")).
Proof. apply no_body_throws. Qed.

(** C2, witness: a parser whose documents have no [body]. *)
Lemma heading_and_paragraph_throws_witness :
  htmlToGoogleDocsStructure bodyless reading (js "<h1>Title</h1><p>Body</p>")
  = Throw (js "Cannot read properties of undefined (reading 'nodeType')").
Proof.
  apply (@heading_and_paragraph_throws bodyless reading (mkDomDocument None));
    reflexivity.
Defined.



(** C4 (defect).  The claim expects the text of an element with an
    unrecognized tag to be written as a plain paragraph.  On
    [<h3>Title</h3>], with a document without [body], both
    transformers throw before they look at any element.  In the
    walking transformer, moreover, the [switch] has no [default]
    branch: an element whose tag has no case is passed over, and
    nothing is written for it. *)
Theorem unrecognized_tag_text_is_lost :
  (forall (parseFromString : jsstring -> option DomDocument)
          (typeError : jsstring -> jsstring) doc,
      parseFromString (js "<h3>Title</h3>") = Some doc ->
      body doc = None ->
      htmlToGoogleDocsStructure parseFromString typeError (js "<h3>Title</h3>")
      = Throw (typeError (js "nodeType"))) /\
  (forall (toLowerCase : jsstring -> jsstring)
          (parseFromString : jsstring -> option DomDocument)
          (typeError : jsstring -> jsstring) doc,
      parseFromString (js "<h3>Title</h3>") = Some doc ->
      body doc = None ->
      FlatTransformer.htmlToGoogleDocsStructure toLowerCase parseFromString typeError
        (js "<h3>Title</h3>")
      = Throw (typeError (js "children"))) /\
  (forall tag kids st,
      ~ In tag recognizedTags -> processElement (Element tag kids) st = st).
Proof.
  split; [|split].
  - intros parseFromString typeError doc. apply no_body_throws.
  - intros toLowerCase parseFromString typeError doc.
    apply FlatTransformerFacts.flat_no_body_throws.
  - intros tag kids st H. now rewrite processElement_other.
Qed.

(** C4, witness: the level-3 heading, for the parser without [body]
    and as an element handed to [processElement]. *)
Lemma unrecognized_tag_text_is_lost_witness :
  htmlToGoogleDocsStructure bodyless reading (js "<h3>Title</h3>")
  = Throw (js "Cannot read properties of undefined (reading 'nodeType')") /\
  processElement (Element (js "H3") [Text (js "Title")]) initial = initial.
Proof.
  destruct unrecognized_tag_text_is_lost as (H1 & _ & H3).
  split.
  - apply (H1 bodyless reading (mkDomDocument None)); reflexivity.
  - apply H3. cbn. intros H. repeat (destruct H as [H | H]; [discriminate H|]). exact H.
Defined.

(** C5 (defect).  The claim expects two bullet lines for
    [<ul><li>A</li><li>B</li></ul>].  When the document that the
    parser returns for it has no [body], the function throws and
    returns no request. *)
Theorem list_fragment_throws
  (parseFromString : jsstring -> option DomDocument) (typeError : jsstring -> jsstring) doc :
  parseFromString (js "<ul><li>A</li><li>B</li></ul>") = Some doc ->
  body doc = None ->
  htmlToGoogleDocsStructure parseFromString typeError (js "<ul><li>A</li><li>B</li></ul>")
  = Throw (typeError (js "nodeType")).
Proof. apply no_body_throws. Qed.

(** C5, witness. *)
Lemma list_fragment_throws_witness :
  htmlToGoogleDocsStructure bodyless reading (js "<ul><li>A</li><li>B</li></ul>")
  = Throw (js "Cannot read properties of undefined (reading 'nodeType')").
Proof.
  apply (@list_fragment_throws bodyless reading (mkDomDocument None)); reflexivity.
Defined.

(** C10 (defect).  The claim expects the text of a paragraph inside a
    block quote to be written twice.  When the document that the
    parser returns for [<blockquote><p>Quote</p></blockquote>] has no
    [body], the function throws and the text is not written at
    all. *)
Theorem nested_fragment_throws
  (parseFromString : jsstring -> option DomDocument) (typeError : jsstring -> jsstring) doc :
  parseFromString (js "<blockquote><p>Quote</p></blockquote>") = Some doc ->
  body doc = None ->
  htmlToGoogleDocsStructure parseFromString typeError
    (js "<blockquote><p>Quote</p></blockquote>")
  = Throw (typeError (js "nodeType")).
Proof. apply no_body_throws. Qed.

(** C10, witness. *)
Lemma nested_fragment_throws_witness :
  htmlToGoogleDocsStructure bodyless reading (js "<blockquote><p>Quote</p></blockquote>")
  = Throw (js "Cannot read properties of undefined (reading 'nodeType')").
Proof.
  apply (@nested_fragment_throws bodyless reading (mkDomDocument None)); reflexivity.
Defined.

End TransformerTheorems.

(** ** The batch loops *)

Module BatchTheorems.

Import ServerSpec.

(** C6 (as amended).  In both servers the loop over N documents runs
    to its end whatever happens to single documents.  Each document
    has one outcome, and the result list holds, in document order, one
    [converted] entry for each converted document, one [failed] entry
    with the message of the error for each document on which a call
    of the [try] block threw, and no entry for a document that is
    left out (classified as not Markdown in [part_003], named like a
    converted document in [index.js]); so its length is the number of
    documents not left out.  When exactly one document fails, the
    result list is the [converted] entries of the documents before
    it, then its [failed] entry, then the [converted] entries of the
    documents after it.  In [index.js] a document whose batch update
    is refused fails with the message of the refusal; in [part_003] a
    document on which the transformer throws fails with the message
    of the transformer. *)
Theorem batch_results :
  (forall World (services : Services World) folder files st,
      fst (convertAll services folder files st) = Return tt /\
      length (outcomes services folder files st) = length files /\
      results services folder files st
      = convertedFiles st ++ new_entries files (outcomes services folder files st) /\
      length (results services folder files st)
      = length (convertedFiles st)
        + length (filter recorded (outcomes services folder files st))) /\
  (forall World (services : Services World) folder before file after st message,
      let st1 := snd (convertAll services folder before st) in
      let st2 := snd (iteration services folder file st1) in
      let entries_before := new_entries before (outcomes services folder before st) in
      let entries_after := new_entries after (outcomes services folder after st2) in
      Forall not_failed (outcomes services folder before st) ->
      outcome services folder file st1 = FailedWith message ->
      Forall not_failed (outcomes services folder after st2) ->
      results services folder (before ++ file :: after) st
      = convertedFiles st ++ entries_before ++ failed (name file) message :: entries_after
      /\ Forall is_converted entries_before
      /\ Forall is_converted entries_after
      /\ length entries_before
         = length (filter recorded (outcomes services folder before st))
      /\ length entries_before <= length before) /\
  (forall World (services : Services World) folder file st docContent w1 message,
      documents_get services (id file) (world st) = (Return docContent, w1) ->
      isMarkdownContent (extractDocumentContent docContent) = true ->
      htmlToGoogleDocsStructure (parseFromString services) (typeError services)
        (marked_parse services (extractDocumentContent docContent))
      = Throw message ->
      outcome services folder file st = FailedWith message) /\
  (forall World (services : Services World) toLowerCase sameName parseDocument
          typeErrorMessage folder files st,
      let run := ByName.convertAll services toLowerCase sameName parseDocument
                   typeErrorMessage folder in
      let outcomes := ByNameSpec.outcomes services toLowerCase sameName parseDocument
                        typeErrorMessage folder in
      fst (run files st) = Return tt /\
      length (outcomes files st) = length files /\
      convertedFiles (snd (run files st))
      = convertedFiles st ++ new_entries files (outcomes files st) /\
      length (convertedFiles (snd (run files st)))
      = length (convertedFiles st) + length (filter recorded (outcomes files st))) /\
  (forall World (services : Services World) toLowerCase sameName parseDocument
          typeErrorMessage folder before file after st message,
      let run := ByName.convertAll services toLowerCase sameName parseDocument
                   typeErrorMessage folder in
      let step := ByName.iteration services toLowerCase sameName parseDocument
                    typeErrorMessage folder in
      let outcomes := ByNameSpec.outcomes services toLowerCase sameName parseDocument
                        typeErrorMessage folder in
      let st1 := snd (run before st) in
      let st2 := snd (step file st1) in
      let entries_before := new_entries before (outcomes before st) in
      let entries_after := new_entries after (outcomes after st2) in
      Forall not_failed (outcomes before st) ->
      ByNameSpec.outcome services toLowerCase sameName parseDocument typeErrorMessage
        folder file st1 = FailedWith message ->
      Forall not_failed (outcomes after st2) ->
      convertedFiles (snd (run (before ++ file :: after) st))
      = convertedFiles st ++ entries_before ++ failed (name file) message :: entries_after
      /\ Forall is_converted entries_before
      /\ Forall is_converted entries_after
      /\ length entries_before = length (filter recorded (outcomes before st))
      /\ length entries_before <= length before) /\
  (forall World (services : Services World) toLowerCase sameName parseDocument
          typeErrorMessage folder file st docContent w1 content ops documentId w2
          message w3,
      ByName.skipped toLowerCase file = false ->
      documents_get services (id file) (world st) = (Return docContent, w1) ->
      ByName.rawContent typeErrorMessage docContent = Return content ->
      TagOrderTransformer.htmlToGoogleDocsStructure sameName parseDocument
        (typeError services) (marked_parse services content) = Return ops ->
      documents_create services (js "Converted-" ++ name file) w1
      = (Return documentId, w2) ->
      documents_batchUpdate services documentId ops w2 = (Throw message, w3) ->
      ByNameSpec.outcome services toLowerCase sameName parseDocument typeErrorMessage
        folder file st = FailedWith message).
Proof.
  split; [|split; [|split; [|split; [|split]]]].
  - intros World services folder files st. unfold results.
    rewrite convertAll_forEachFile, outcomes_outcomesFrom.
    apply loop_results. apply iteration_spec.
  - intros World services folder before file after st message. unfold results.
    cbv zeta. rewrite !convertAll_forEachFile, !outcomes_outcomesFrom.
    intros Hb Hk Ha.
    destruct (@loop_single_failure World (iteration services folder)
                (outcome services folder) (iteration_spec services folder)
                before file after st message Hb Hk Ha) as (E & C1 & C2 & N & L).
    auto.
  - intros World services folder file st docContent w1 message Hget Hmd Ht.
    exact (proj1 (@transformer_failure World services folder file st docContent w1
                    message Hget Hmd Ht)).
  - intros World services toLowerCase sameName parseDocument typeErrorMessage folder
      files st. cbv zeta. unfold ByNameSpec.outcomes. rewrite byName_forEachFile.
    apply loop_results. apply byName_spec.
  - intros World services toLowerCase sameName parseDocument typeErrorMessage folder
      before file after st message. cbv zeta. unfold ByNameSpec.outcomes.
    rewrite !byName_forEachFile. intros Hb Hk Ha.
    destruct (@loop_single_failure World _ _
                (byName_spec services toLowerCase sameName parseDocument
                   typeErrorMessage folder)
                before file after st message Hb Hk Ha) as (E & C1 & C2 & N & L).
    auto.
  - intros World services toLowerCase sameName parseDocument typeErrorMessage folder
      file st docContent w1 content ops documentId w2 message w3.
    apply byName_submit_failure.
Qed.

(** C6, witness: the sample run through the loop of [index.js], in
    which the first of three documents is left out by its name and the
    batch update of the second is refused. *)
Lemma batch_results_witness :
  ByNameSpec.results sample_services ascii_toLowerCase str_eqb heading_document
    (js "TypeError") (js "folder") sample_files sample_start
  = [ failed (js "b") (js "quota exceeded");
      converted (js "c") (js "c.pdf") ].
Proof.
  destruct batch_results as (_ & _ & _ & _ & H & _).
  destruct (H unit sample_services ascii_toLowerCase str_eqb heading_document
              (js "TypeError") (js "folder")
              [mkFile (js "1") (js "Converted-notes")] (mkFile (js "2") (js "b"))
              [mkFile (js "3") (js "c")] sample_start (js "quota exceeded"))
    as (E & _).
  - vm_compute. auto.
  - vm_compute. reflexivity.
  - vm_compute. auto.
  - exact E.
Defined.

(** C6, counterexample.  Of three documents the loop of [index.js]
    leaves out the first and is refused the batch update of the
    second: the result list has two entries, not three, its [failed]
    entry is the first one, not the second, and the first document
    has no entry. *)
Lemma left_out_document_counterexample :
  length sample_files = 3 /\
  ByNameSpec.outcomes sample_services ascii_toLowerCase str_eqb heading_document
    (js "TypeError") (js "folder") sample_files sample_start
  = [Skipped; FailedWith (js "quota exceeded"); Converted] /\
  ByNameSpec.results sample_services ascii_toLowerCase str_eqb heading_document
    (js "TypeError") (js "folder") sample_files sample_start
  = [ failed (js "b") (js "quota exceeded");
      converted (js "c") (js "c.pdf") ].
Proof. repeat split; vm_compute; reflexivity. Qed.

End BatchTheorems.

Module LayoutExtras.

(** X9.  When the parser gives no document, the transformer of
    [index.js] throws on reading [getElementsByTagName].  Otherwise it
    returns its requests, which write the document grouped by tag and
    not in document order: first the texts of all [h1] elements, then
    of all [h2], then of all [p], then one prefixed line for every
    [li] descendant of every [ul], then the texts of all [pre], each
    followed by a line feed.  An [h1], [h2], [p] or [pre] whose text
    is blank is left out; a list item is written behind its prefix,
    the four code units U+00E2, U+20AC, U+00A2 and a space, even when
    its text is blank.  Every insertion stands right after the text
    inserted before it, counted from 1. *)
Theorem tag_order_output
  (sameName : jsstring -> jsstring -> bool)
  (parseDocument : jsstring -> option (list node))
  (typeError : jsstring -> jsstring) htmlContent :
  match parseDocument htmlContent with
  | None =>
      TagOrderTransformer.htmlToGoogleDocsStructure sameName parseDocument typeError
        htmlContent
      = Throw (typeError (js "getElementsByTagName"))
  | Some doc =>
      let elements := TagOrderTransformer.getElementsByTagName sameName doc in
      exists ops,
        TagOrderTransformer.htmlToGoogleDocsStructure sameName parseDocument typeError
          htmlContent
        = Return ops /\
        inserted_texts ops
        = lines_of (elements (js "h1"))
          ++ lines_of (elements (js "h2"))
          ++ lines_of (elements (js "p"))
          ++ flat_map
               (fun list =>
                  map (fun item => [226; 8364; 162; 32]%N ++ textContent item ++ [10%N])
                      (TagOrderTransformer.getElementsByTagName sameName
                         (childNodes list) (js "li")))
               (elements (js "ul"))
          ++ lines_of (elements (js "pre")) /\
        placed 1 ops
  end.
Proof.
  unfold TagOrderTransformer.htmlToGoogleDocsStructure.
  destruct (parseDocument htmlContent) as [doc|]; [|reflexivity].
  cbv zeta. eexists. split; [reflexivity|].
  apply TagOrderFacts.tag_order_lines.
Qed.

(** X12.  In the transformer of [index.js] the items of a list nested
    in another list are written once for each list above them: when a
    [ul] lies inside a [ul], the line of every [li] of the inner list
    occurs twice among the inserted texts. *)
Theorem nested_list_items_are_written_twice
  (sameName : jsstring -> jsstring -> bool)
  (parseDocument : jsstring -> option (list node))
  (typeError : jsstring -> jsstring)
  htmlContent doc outer inner item :
  parseDocument htmlContent = Some doc ->
  In outer (TagOrderTransformer.getElementsByTagName sameName doc (js "ul")) ->
  In inner (TagOrderTransformer.getElementsByTagName sameName (childNodes outer) (js "ul")) ->
  In item (TagOrderTransformer.getElementsByTagName sameName (childNodes inner) (js "li")) ->
  exists ops a b c,
    TagOrderTransformer.htmlToGoogleDocsStructure sameName parseDocument typeError
      htmlContent
    = Return ops /\
    inserted_texts ops
    = a ++ (TagOrderTransformer.itemPrefix ++ textContent item ++ newline)
        :: b ++ (TagOrderTransformer.itemPrefix ++ textContent item ++ newline) :: c.
Proof.
  intros Hdoc Ho Hi Hitem.
  unfold TagOrderTransformer.htmlToGoogleDocsStructure. rewrite Hdoc.
  eexists. 
  assert (G : forall ops : list request,
             (exists a b c,
                inserted_texts ops
                = a ++ (TagOrderTransformer.itemPrefix ++ textContent item ++ newline)
                    :: b ++ (TagOrderTransformer.itemPrefix ++ textContent item ++ newline)
                    :: c) ->
             exists a b c,
               Return ops = Return ops /\
               inserted_texts ops
               = a ++ (TagOrderTransformer.itemPrefix ++ textContent item ++ newline)
                   :: b ++ (TagOrderTransformer.itemPrefix ++ textContent item ++ newline)
                   :: c).
  { intros ops (a & b & c & E). exists a, b, c. split; [reflexivity | exact E]. }
  apply G. clear G.
  destruct (TagOrderFacts.tag_order_lines sameName doc) as [E _].
  rewrite E. clear E.
  set (line := fun it => TagOrderTransformer.itemPrefix ++ textContent it ++ newline).
  set (items := fun list =>
                  map line (TagOrderTransformer.getElementsByTagName sameName
                              (childNodes list) (js "li"))).
  unfold TagOrderTransformer.getElementsByTagName in Ho, Hi, Hitem.
  apply filter_In in Ho. destruct Ho as [Ho Hon].
  apply filter_In in Hi. destruct Hi as [Hi Hin].
  apply filter_In in Hitem. destruct Hitem as [Hitem Hitemn].
  rewrite TagOrderFacts.descendants_childNodes in Hi, Hitem.
  destruct (TagOrderFacts.descendantsOf_preorder doc outer Ho) as (a0 & c0 & Ed).
  destruct (TagOrderFacts.descendants_preorder outer inner Hi) as (a1 & c1 & Ei).
  assert (Hitem_outer : In item (TagOrderTransformer.descendants outer)).
  { rewrite Ei. rewrite in_app_iff. right. right. rewrite in_app_iff. now left. }
  assert (Huls : exists x y z,
    TagOrderTransformer.getElementsByTagName sameName doc (js "ul")
    = x ++ outer :: y ++ inner :: z).
  { unfold TagOrderTransformer.getElementsByTagName. rewrite Ed, Ei.
    rewrite !filter_app. cbn [filter]. rewrite Hon.
    rewrite ?filter_app. cbn [filter]. rewrite Hin. rewrite ?filter_app.
    exists (filter (fun e => sameName (tagName e) (js "ul")) a0),
           (filter (fun e => sameName (tagName e) (js "ul")) a1),
           (filter (fun e => sameName (tagName e) (js "ul"))
                   (TagOrderTransformer.descendants inner)
            ++ filter (fun e => sameName (tagName e) (js "ul")) c1
            ++ filter (fun e => sameName (tagName e) (js "ul")) c0).
    repeat (rewrite <- app_assoc || rewrite <- app_comm_cons). reflexivity. }
  destruct Huls as (x & y & z & ->).
  rewrite !flat_map_app. cbn [flat_map]. rewrite !flat_map_app. cbn [flat_map].
  fold (items outer). fold (items inner).
  assert (H1 : In (line item) (items outer)).
  { unfold items. apply in_map. unfold TagOrderTransformer.getElementsByTagName.
    apply filter_In. rewrite TagOrderFacts.descendants_childNodes. auto. }
  assert (H2 : In (line item) (items inner)).
  { unfold items. apply in_map. unfold TagOrderTransformer.getElementsByTagName.
    apply filter_In. rewrite TagOrderFacts.descendants_childNodes. auto. }
  repeat rewrite <- app_assoc.
  now apply TagOrderFacts.twice_in_app.
Qed.

Lemma nested_list_items_witness :
  exists ops a b c,
    TagOrderTransformer.htmlToGoogleDocsStructure str_eqb
      (fun _ =>
         Some [Element (js "ul")
                 [Element (js "li")
                    [Text (js "a");
                     Element (js "ul") [Element (js "li") [Text (js "b")]]]]])
      reading
      (js "<ul><li>a<ul><li>b</li></ul></li></ul>")
    = Return ops /\
    inserted_texts ops
    = a ++ (TagOrderTransformer.itemPrefix
              ++ textContent (Element (js "li") [Text (js "b")]) ++ newline)
        :: b ++ (TagOrderTransformer.itemPrefix
                   ++ textContent (Element (js "li") [Text (js "b")]) ++ newline) :: c.
Proof.
  apply (@nested_list_items_are_written_twice str_eqb
           (fun _ =>
              Some [Element (js "ul")
                      [Element (js "li")
                         [Text (js "a");
                          Element (js "ul") [Element (js "li") [Text (js "b")]]]]])
           reading
           (js "<ul><li>a<ul><li>b</li></ul></li></ul>")
           [Element (js "ul")
              [Element (js "li")
                 [Text (js "a");
                  Element (js "ul") [Element (js "li") [Text (js "b")]]]]]
           (Element (js "ul")
              [Element (js "li")
                 [Text (js "a");
                  Element (js "ul") [Element (js "li") [Text (js "b")]]]])
           (Element (js "ul") [Element (js "li") [Text (js "b")]])
           (Element (js "li") [Text (js "b")])).
  - reflexivity.
  - vm_compute. auto.
  - vm_compute. auto.
  - vm_compute. auto.
Defined.

End LayoutExtras.

Module ServerExtras.

Import Server ServerSpec ServerFacts.





(** X18.  The middleware reads the token as the second field of the
    header split at spaces and never looks at the first: with two
    headers that differ in the scheme only, each of the three routes
    gives the same answer and leaves the same state. *)
Theorem scheme_is_not_checked (World : Type) (services : Services World)
  (google : Google World) scheme1 scheme2 token (srv : server World) :
  ~ In 32%N scheme1 ->
  ~ In 32%N scheme2 ->
  ~ In 32%N token ->
  bearerToken (scheme1 ++ 32%N :: token) = Some token /\
  authenticateGoogle google (Some (scheme1 ++ 32%N :: token)) (convert services google) srv
  = authenticateGoogle google (Some (scheme2 ++ 32%N :: token)) (convert services google) srv /\
  authenticateGoogle google (Some (scheme1 ++ 32%N :: token)) (@downloadZip World) srv
  = authenticateGoogle google (Some (scheme2 ++ 32%N :: token)) (@downloadZip World) srv /\
  authenticateGoogle google (Some (scheme1 ++ 32%N :: token)) (docsRoute services google) srv
  = authenticateGoogle google (Some (scheme2 ++ 32%N :: token)) (docsRoute services google) srv.
Proof.
  intros H1 H2 Ht.
  assert (T : forall scheme, ~ In 32%N scheme ->
                bearerToken (scheme ++ 32%N :: token) = Some token).
  { intros scheme H. unfold bearerToken.
    rewrite (@split_first _ _ token H), (@split_no_separator _ _ Ht). reflexivity. }
  assert (N : forall scheme, truthy (scheme ++ 32%N :: token) = true).
  { intros [|c scheme]; reflexivity. }
  split; [now apply T|].
  unfold authenticateGoogle. rewrite !N, !T by assumption. cbn [negb].
  destruct (userinfo_get google _) as [[[] | m] w]; [|auto].
  repeat split.
  unfold convert. now rewrite !T by assumption.
Qed.

Lemma scheme_is_not_checked_witness :
  bearerToken (js "Bearer abc") = Some (js "abc") /\
  authenticateGoogle sample_google (Some (js "Bearer abc"))
    (convert sample_services sample_google) sample_server
  = authenticateGoogle sample_google (Some (js "Basic abc"))
      (convert sample_services sample_google) sample_server.
Proof.
  destruct (@scheme_is_not_checked unit sample_services sample_google
              (js "Bearer") (js "Basic") (js "abc") sample_server)
    as (A & B & _).
  - vm_compute. intuition discriminate.
  - vm_compute. intuition discriminate.
  - vm_compute. intuition discriminate.
  - split; [exact A | exact B].
Defined.

End ServerExtras.

Module ListingFacts.

Import Server ServerSpec ServerFacts.

Section Listing.

Variable World : Type.
Variable services : Services World.

Lemma listMarkdown_spec files : forall markdownDocs w,
  exists found,
    fst (listMarkdown services files markdownDocs w) = markdownDocs ++ found /\
    subsequence (map listed found) files /\
    Forall (previewed services) found.
Proof.
  induction files as [|file rest IH]; intros docs w.
  - exists []. cbn. rewrite app_nil_r. repeat constructor.
  - cbn [listMarkdown].
    destruct (documents_get services (id file) w) as [[doc | m] w'] eqn:Eg.
    + destruct (isMarkdownContent (extractDocumentContent doc)) eqn:Em.
      * destruct (IH (docs ++ [mkMarkdownDoc file (firstn 200 (extractDocumentContent doc))]) w')
          as (found & E & Hs & Hp).
        exists (mkMarkdownDoc file (firstn 200 (extractDocumentContent doc)) :: found).
        rewrite E, <- app_assoc. split; [reflexivity|].
        split; [cbn; now constructor|].
        constructor; [|exact Hp]. exists w, doc, w'. auto.
      * destruct (IH docs w') as (found & E & Hs & Hp).
        exists found. split; [exact E|]. split; [now constructor | exact Hp].
    + destruct (IH docs w') as (found & E & Hs & Hp).
      exists found. split; [exact E|]. split; [now constructor | exact Hp].
Qed.

End Listing.

Lemma ascii_toLowerCase_app a b :
  ascii_toLowerCase (a ++ b) = ascii_toLowerCase a ++ ascii_toLowerCase b.
Proof. apply map_app. Qed.

End ListingFacts.

Module LoopExtras.

Import Server ServerSpec ServerFacts ListingFacts.

(** X19.  Once the documents are listed, [GET /api/docs] answers with
    a list and never with an error, whatever happens on the single
    documents.  The documents of the answer are documents of the
    listing, in the order of the listing and each at most once per
    occurrence; each was fetched, its extracted text was classified as
    Markdown, and its preview is the first 200 code units of that
    text.  The archive is left as it was. *)
Theorem docs_listing (World : Type) (services : Services World) (google : Google World)
  authorization (srv : server World) files w :
  files_list google (remote srv) = (Return files, w) ->
  exists markdownDocs srv',
    docsRoute services google authorization srv = (documents markdownDocs, srv') /\
    convertedZip srv' = convertedZip srv /\
    subsequence (map listed markdownDocs) files /\
    Forall (previewed services) markdownDocs /\
    Forall (fun d => length (previewContent d) <= 200) markdownDocs.
Proof.
  intros Hl. unfold docsRoute. rewrite Hl.
  destruct (listMarkdown_spec services files [] w) as (found & E & Hs & Hp).
  destruct (listMarkdown services files [] w) as [docs w'].
  cbn [fst app] in E. subst docs.
  exists found, (mkServer (convertedZip srv) w').
  repeat split; auto.
  rewrite Forall_forall in *. intros d Hd.
  destruct (Hp d Hd) as (w0 & doc & w1 & _ & _ & ->).
  apply firstn_le_length.
Qed.

Lemma docs_listing_witness :
  exists markdownDocs srv',
    docsRoute sample_services sample_google (js "Bearer abc") sample_server
    = (documents markdownDocs, srv') /\
    convertedZip srv' = convertedZip sample_server /\
    subsequence (map listed markdownDocs) sample_files /\
    Forall (previewed sample_services) markdownDocs /\
    Forall (fun d => length (previewContent d) <= 200) markdownDocs.
Proof.
  apply (@docs_listing unit sample_services sample_google (js "Bearer abc")
           sample_server sample_files tt).
  reflexivity.
Defined.

(** X20.  The loop of [index.js] runs to its end and records exactly
    one entry, [converted] or [failed], for each document whose
    lower-cased name does not contain [converted], in document order,
    and none for the others: whether the text of a document is
    Markdown plays no part.  A document on which the transformer
    throws, as on a source for which the parser gives no document, is
    recorded as [failed] with the message of the transformer, and
    nothing is created for it. *)
Theorem one_entry_per_document_not_left_out (World : Type) (services : Services World)
  (toLowerCase : jsstring -> jsstring) (sameName : jsstring -> jsstring -> bool)
  (parseDocument : jsstring -> option (list node)) (typeErrorMessage folder : jsstring) :
  (forall (files : list File) (st : handlerState World),
      let final :=
        ByName.convertAll services toLowerCase sameName parseDocument typeErrorMessage
          folder files st in
      fst final = Return tt /\
      map originalFileName (convertedFiles (snd final))
      = map originalFileName (convertedFiles st)
        ++ map name (filter (fun file => negb (ByName.skipped toLowerCase file)) files)) /\
  (forall file st docContent w1 content message,
      ByName.skipped toLowerCase file = false ->
      documents_get services (id file) (world st) = (Return docContent, w1) ->
      ByName.rawContent typeErrorMessage docContent = Return content ->
      TagOrderTransformer.htmlToGoogleDocsStructure sameName parseDocument
        (typeError services) (marked_parse services content) = Throw message ->
      ByName.iteration services toLowerCase sameName parseDocument typeErrorMessage
        folder file st
      = (Return tt,
         mkHandlerState (convertedFiles st ++ [failed (name file) message]) w1)).
Proof.
  split.
  - intros files st final. subst final. apply byName_names.
  - intros file st docContent w1 content message. apply byName_transformer_failure.
Qed.

Lemma one_entry_per_document_witness :
  ByName.iteration blank_services ascii_toLowerCase str_eqb heading_document
    (js "TypeError") (js "folder") (mkFile (js "4") (js "d")) sample_start
  = (Return tt,
     mkHandlerState
       [failed (js "d")
          (js "Cannot read properties of undefined (reading 'getElementsByTagName')")]
       tt).
Proof.
  destruct (@one_entry_per_document_not_left_out unit blank_services ascii_toLowerCase
              str_eqb heading_document (js "TypeError") (js "folder")) as [_ H].
  apply (H (mkFile (js "4") (js "d")) sample_start (document_of []) tt []
           (js "Cannot read properties of undefined (reading 'getElementsByTagName')"));
    reflexivity.
Defined.

(** X21.  The loop of [index.js] leaves alone the documents that a
    run creates: on documents titled [Converted-] followed by a name
    it calls no service, archives nothing and records nothing.  The
    lower-casing is assumed to map the prefix [Converted-] of a name
    to [converted-]. *)
Theorem created_documents_are_left_out (World : Type) (services : Services World)
  (toLowerCase : jsstring -> jsstring) (sameName : jsstring -> jsstring -> bool)
  (parseDocument : jsstring -> option (list node)) (typeErrorMessage folder : jsstring)
  (files : list File) (st : handlerState World) :
  (forall n, exists rest, toLowerCase (js "Converted-" ++ n) = js "converted-" ++ rest) ->
  Forall (fun file => exists n, name file = js "Converted-" ++ n) files ->
  ByName.convertAll services toLowerCase sameName parseDocument typeErrorMessage
    folder files st
  = (Return tt, st).
Proof.
  intros Hpre Hall. apply byName_all_skipped.
  rewrite Forall_forall in *. intros file Hin.
  destruct (Hall file Hin) as (n & En).
  destruct (Hpre n) as (rest & Er).
  unfold ByName.skipped. rewrite En, Er.
  apply str_includes_spec. exists [], (js "-" ++ rest). reflexivity.
Qed.

Lemma created_documents_witness :
  ByName.convertAll sample_services ascii_toLowerCase str_eqb heading_document
    (js "TypeError") (js "folder")
    [mkFile (js "1") (js "Converted-notes"); mkFile (js "9") (js "Converted-c")]
    sample_start
  = (Return tt, sample_start).
Proof.
  apply created_documents_are_left_out.
  - intros n. exists (ascii_toLowerCase n). apply ascii_toLowerCase_app.
  - repeat constructor.
    + exists (js "notes"). reflexivity.
    + exists (js "c"). reflexivity.
Defined.

(** X22.  The text that the loop of [index.js] reads in line is the
    text that [extractDocumentContent] returns whenever every
    paragraph holds exactly one non-empty text run.  On a document
    without a body the two part: the extraction returns the empty
    string, the in-line reading raises. *)
Theorem rawContent_agrees_on_single_runs typeErrorMessage bodyContent :
  Forall single_run bodyContent ->
  ByName.rawContent typeErrorMessage (mkDocument (Some bodyContent))
  = Return (extractDocumentContent (mkDocument (Some bodyContent)))
  /\ ByName.rawContent typeErrorMessage (mkDocument None) = Throw typeErrorMessage
  /\ extractDocumentContent (mkDocument None) = [].
Proof.
  intros H. split; [|split; reflexivity].
  unfold ByName.rawContent, extractDocumentContent. cbn [body_content].
  do 2 f_equal.
  induction H as [|section rest Hs _ IH]; [reflexivity|].
  cbn [flat_map]. rewrite map_app, IH. f_equal.
  unfold single_run in Hs.
  destruct (paragraph_elements section) as [elements|]; [|reflexivity].
  destruct Hs as (c & Ec). cbn [map]. fold (RichExtraction.runs elements).
  rewrite Ec. cbn. now rewrite app_nil_r.
Qed.

Lemma rawContent_agrees_witness :
  ByName.rawContent (js "TypeError")
    (mkDocument
       (Some [ mkStructuralElement (Some [mkParagraphElement (Some (js "# Title"))]);
               mkStructuralElement None;
               mkStructuralElement
                 (Some [mkParagraphElement None; mkParagraphElement (Some (js "text"))]) ]))
  = Return (js "# Title" ++ newline ++ js "text").
Proof.
  destruct (@rawContent_agrees_on_single_runs (js "TypeError")
              [ mkStructuralElement (Some [mkParagraphElement (Some (js "# Title"))]);
                mkStructuralElement None;
                mkStructuralElement
                  (Some [mkParagraphElement None; mkParagraphElement (Some (js "text"))]) ])
    as (E & _).
  - repeat constructor.
    + exists (js "# Title"). reflexivity.
    + exists (js "text"). reflexivity.
  - rewrite E. reflexivity.
Defined.

End LoopExtras.

(** ** The route [POST /api/convert-2] *)

Module Convert2Facts.

Import ServerSpec ServerFacts.

Section Loop.

Variable World : Type.
Variable services : Services World.
Variable folder : jsstring.







End Loop.

End Convert2Facts.

Module Convert2Extras.

Import Server ServerSpec ServerFacts Convert2Facts.



End Convert2Extras.
